(** * Verification of m-ld-iroha: the Iroha consensus agreement condition

    A shallow embedding of [lib/ConsensusCondition.js]: the [AffectedLoader]
    that builds the final state of the subjects affected by an update, the
    [prove] and [test] methods of [ConsensusCondition], and the
    transactions that [IrohaMeldDomain] builds.

    Conventions of the embedding.
    - A JavaScript value is a [Value]; [undefined] is [None] in an
      [option Value].  Numbers are the integers, written in decimal.  A
      string is a sequence of code units below 256.
    - A JavaScript object is an association list in the order of its own
      keys.  This is the order of insertion, which is what JavaScript gives
      for every key that is not a canonical array index; identifiers and
      properties handed to an extension are IRIs or terms.  Names inherited
      from [Object.prototype] are not modelled.
    - Asynchronous methods run in a state-and-exception monad over a
      [World], which holds the Iroha account details, the random source and
      the trace of the interactions with the collaborators. *)

From Stdlib Require Import List String Ascii ZArith Lia Bool Arith.
From Stdlib Require Import Decimal DecimalString DecimalZ.
From Stdlib Require Import DecimalPos DecimalFacts DecimalN.
Import ListNotations.
Local Open Scope string_scope.
Local Open Scope list_scope.

(* ================================================================== *)
(** * JavaScript values *)

Unset Elimination Schemes.
Inductive Value : Type :=
| VNull : Value
| VBool : bool -> Value
| VNum : Z -> Value
| VStr : string -> Value
| VArr : list Value -> Value
| VObj : list (string * Value) -> Value.
Set Elimination Schemes.

(** An object, as the list of its own enumerable entries. *)
Definition Obj : Type := list (string * Value).

(** The double quote and the backslash. *)
Definition DQUOTE : ascii := "034"%char.
Definition BACKSLASH : ascii := "\"%char.

(** [o[k]] on an object: the first (and, in an object, only) entry. *)
Fixpoint obj_get (k : string) (o : Obj) : option Value :=
  match o with
  | [] => None
  | (k', v) :: o' => if String.eqb k' k then Some v else obj_get k o'
  end.

(** [o[k] = v]: an existing key keeps its place, a new one goes last. *)
Fixpoint obj_set (k : string) (v : Value) (o : Obj) : Obj :=
  match o with
  | [] => [(k, v)]
  | (k', v') :: o' =>
      if String.eqb k' k then (k', v) :: o' else (k', v') :: obj_set k v o'
  end.

(** [delete o[k]] *)
Definition obj_remove (k : string) (o : Obj) : Obj :=
  filter (fun kv => negb (String.eqb (fst kv) k)) o.

(** [Object.keys(o)] *)
Definition Object_keys (o : Obj) : list string := map fst o.

Definition mem_string (k : string) (l : list string) : bool :=
  existsb (String.eqb k) l.

Fixpoint nodup_keys (l : list string) : bool :=
  match l with
  | [] => true
  | k :: l' => negb (mem_string k l') && nodup_keys l'
  end.

(** The invariant of the representation: no object has a key twice. *)
Fixpoint wf_value (v : Value) : bool :=
  match v with
  | VArr l => forallb wf_value l
  | VObj o => nodup_keys (map fst o) && forallb (fun kv => wf_value (snd kv)) o
  | _ => true
  end.

Definition wf_obj (o : Obj) : bool := wf_value (VObj o).

(** Structural equality of values. *)
Fixpoint Value_eqb (a b : Value) {struct a} : bool :=
  match a, b with
  | VNull, VNull => true
  | VBool x, VBool y => Bool.eqb x y
  | VNum x, VNum y => Z.eqb x y
  | VStr x, VStr y => String.eqb x y
  | VArr l, VArr m =>
      (fix go (l m : list Value) {struct l} : bool :=
         match l, m with
         | [], [] => true
         | x :: l', y :: m' => Value_eqb x y && go l' m'
         | _, _ => false
         end) l m
  | VObj l, VObj m =>
      (fix go (l m : Obj) {struct l} : bool :=
         match l, m with
         | [], [] => true
         | (k, x) :: l', (k', y) :: m' =>
             String.eqb k k' && Value_eqb x y && go l' m'
         | _, _ => false
         end) l m
  | _, _ => false
  end.

(** [a === b] when one side was freshly parsed: primitives compare by
    value, and an object or array is never identical to a fresh one. *)
Definition strict_eq (a b : option Value) : bool :=
  match a, b with
  | None, None => true
  | Some VNull, Some VNull => true
  | Some (VBool x), Some (VBool y) => Bool.eqb x y
  | Some (VNum x), Some (VNum y) => Z.eqb x y
  | Some (VStr x), Some (VStr y) => String.eqb x y
  | _, _ => false
  end.

(** [v == null]: true of [null] and of [undefined]. *)
Definition is_nullish (v : option Value) : bool :=
  match v with
  | None | Some VNull => true
  | _ => false
  end.

(* ================================================================== *)
(** * JSON *)

Module JSON.

(** ** stringify *)

Definition hex_digit (n : nat) : ascii :=
  match n with
  | 0 => "0" | 1 => "1" | 2 => "2" | 3 => "3" | 4 => "4"
  | 5 => "5" | 6 => "6" | 7 => "7" | 8 => "8" | 9 => "9"
  | 10 => "a" | 11 => "b" | 12 => "c" | 13 => "d" | 14 => "e"
  | _ => "f"
  end%char.

(** One code unit of a string, as [JSON.stringify] writes it. *)
Definition quote_char (c : ascii) : string :=
  if Ascii.eqb c DQUOTE then String BACKSLASH (String DQUOTE "")
  else if Ascii.eqb c BACKSLASH then String BACKSLASH (String BACKSLASH "")
  else if Ascii.eqb c "008" then String BACKSLASH "b"
  else if Ascii.eqb c "012" then String BACKSLASH "f"
  else if Ascii.eqb c "010" then String BACKSLASH "n"
  else if Ascii.eqb c "013" then String BACKSLASH "r"
  else if Ascii.eqb c "009" then String BACKSLASH "t"
  else if Nat.ltb (nat_of_ascii c) 32 then
    String BACKSLASH
      (String "u" (String "0" (String "0"
        (String (hex_digit (nat_of_ascii c / 16))
          (String (hex_digit (nat_of_ascii c mod 16)) "")))))
  else String c "".

Fixpoint quote_body (s : string) : string :=
  match s with
  | "" => ""
  | String c r => quote_char c ++ quote_body r
  end.

(** [JSON.stringify(s)] for a string [s]. *)
Definition quote (s : string) : string :=
  String DQUOTE (quote_body s ++ String DQUOTE "").

Definition string_of_Z (z : Z) : string := NilZero.string_of_int (Z.to_int z).

(** What follows the first element of an array: the other elements, each
    after a comma, and the closing bracket. *)
Fixpoint elems_tail (f : Value -> string) (l : list Value) : string :=
  match l with
  | [] => "]"
  | y :: l' => String "," (f y ++ elems_tail f l')
  end.

(** What follows the first member of an object. *)
Fixpoint members_tail (f : Value -> string) (o : list (string * Value)) : string :=
  match o with
  | [] => "}"
  | (k, y) :: o' => String "," (quote k ++ String ":" (f y ++ members_tail f o'))
  end.

(** [JSON.stringify(v)], with no indentation. *)
Fixpoint stringify (v : Value) : string :=
  match v with
  | VNull => "null"
  | VBool true => "true"
  | VBool false => "false"
  | VNum z => string_of_Z z
  | VStr s => quote s
  | VArr [] => "[]"
  | VArr (x :: l) =>
      String "[" (stringify x ++ elems_tail stringify l)
  | VObj [] => "{}"
  | VObj ((k, x) :: o) =>
      String "{" (quote k ++ String ":"
                    (stringify x ++ members_tail stringify o))
  end.

(** ** parse *)

Definition is_ws (c : ascii) : bool :=
  Ascii.eqb c " " || Ascii.eqb c "009" || Ascii.eqb c "010" || Ascii.eqb c "013".

Fixpoint skip_ws (s : string) : string :=
  match s with
  | String c r => if is_ws c then skip_ws r else s
  | "" => ""
  end.

Definition unhex (c : ascii) : option nat :=
  let n := nat_of_ascii c in
  if Nat.leb 48 n && Nat.leb n 57 then Some (n - 48)
  else if Nat.leb 97 n && Nat.leb n 102 then Some (n - 87)
  else if Nat.leb 65 n && Nat.leb n 70 then Some (n - 55)
  else None.

Definition unhex4 (a b c d : ascii) : option nat :=
  match unhex a, unhex b, unhex c, unhex d with
  | Some x, Some y, Some z, Some w => Some (((x * 16 + y) * 16 + z) * 16 + w)
  | _, _, _, _ => None
  end.

Definition simple_escape (e : ascii) : option ascii :=
  if Ascii.eqb e DQUOTE then Some DQUOTE
  else if Ascii.eqb e BACKSLASH then Some BACKSLASH
  else if Ascii.eqb e "/" then Some "/"%char
  else if Ascii.eqb e "b" then Some "008"%char
  else if Ascii.eqb e "f" then Some "012"%char
  else if Ascii.eqb e "n" then Some "010"%char
  else if Ascii.eqb e "r" then Some "013"%char
  else if Ascii.eqb e "t" then Some "009"%char
  else None.

Definition cons_char (c : ascii) (r : option (string * string))
  : option (string * string) :=
  match r with
  | Some (t, rest) => Some (String c t, rest)
  | None => None
  end.

(** The characters of a JSON string after its opening quote: the decoded
    string and what follows the closing quote.  A code unit above 255 has no
    representation here and is refused. *)
Fixpoint parse_string_body (s : string) : option (string * string) :=
  match s with
  | "" => None
  | String c r =>
      if Ascii.eqb c DQUOTE then Some ("", r)
      else if Ascii.eqb c BACKSLASH then
        match r with
        | "" => None
        | String e r1 =>
            if Ascii.eqb e "u" then
              match r1 with
              | String h1 (String h2 (String h3 (String h4 r2))) =>
                  match unhex4 h1 h2 h3 h4 with
                  | Some n =>
                      if Nat.ltb n 256
                      then cons_char (ascii_of_nat n) (parse_string_body r2)
                      else None
                  | None => None
                  end
              | _ => None
              end
            else
              match simple_escape e with
              | Some ch => cons_char ch (parse_string_body r1)
              | None => None
              end
        end
      else if Nat.ltb (nat_of_ascii c) 32 then None
      else cons_char c (parse_string_body r)
  end.

Definition digit_of (c : ascii) : option (uint -> uint) :=
  if Ascii.eqb c "0" then Some D0
  else if Ascii.eqb c "1" then Some D1
  else if Ascii.eqb c "2" then Some D2
  else if Ascii.eqb c "3" then Some D3
  else if Ascii.eqb c "4" then Some D4
  else if Ascii.eqb c "5" then Some D5
  else if Ascii.eqb c "6" then Some D6
  else if Ascii.eqb c "7" then Some D7
  else if Ascii.eqb c "8" then Some D8
  else if Ascii.eqb c "9" then Some D9
  else None.

Definition is_digit (c : ascii) : bool :=
  match digit_of c with Some _ => true | None => false end.

(** The longest run of decimal digits at the head of [s]. *)
Fixpoint read_digits (s : string) : uint * string :=
  match s with
  | "" => (Nil, "")
  | String c r =>
      match digit_of c with
      | Some d => let (u, rest) := read_digits r in (d u, rest)
      | None => (Nil, s)
      end
  end.

(** A JSON integer has at least one digit and no leading zero; a
    fraction or an exponent is outside the embedding and is refused. *)
Definition int_literal_ok (u : uint) (rest : string) : bool :=
  match u with
  | Nil => false
  | D0 Nil => true
  | D0 _ => false
  | _ => true
  end
  &&
  match rest with
  | String c _ => negb (Ascii.eqb c "." || Ascii.eqb c "e" || Ascii.eqb c "E")
  | "" => true
  end.

(** The rest of [s] when it starts with [c]. *)
Definition next_is (c : ascii) (s : string) : option string :=
  match s with
  | String c' r => if Ascii.eqb c' c then Some r else None
  | "" => None
  end.

Definition parse_number (s : string) : option (Value * string) :=
  match next_is "-" s with
  | Some r =>
      let (u, rest) := read_digits r in
      if int_literal_ok u rest then Some (VNum (Z.of_int (Neg u)), rest) else None
  | None =>
      let (u, rest) := read_digits s in
      if int_literal_ok u rest then Some (VNum (Z.of_int (Pos u)), rest) else None
  end.

Fixpoint expect (lit : string) (s : string) : option string :=
  match lit with
  | "" => Some s
  | String c lit' =>
      match s with
      | String c' s' => if Ascii.eqb c c' then expect lit' s' else None
      | "" => None
      end
  end.

(** The object with the given members, set one after the other: of two
    members with one key the later gives the value. *)
Definition object_of (ms : list (string * Value)) : Obj :=
  fold_left (fun o kv => obj_set (fst kv) (snd kv) o) ms [].

(** Recursive descent with fuel; [parse_elems] reads the elements of an
    array after its first bracket, [parse_members] the members of an object
    after its first brace. *)
Fixpoint parse_value (fuel : nat) (s : string) {struct fuel}
  : option (Value * string) :=
  match fuel with
  | O => None
  | S fuel' =>
      match skip_ws s with
      | "" => None
      | String c r =>
          if Ascii.eqb c "n" then
            match expect "ull" r with
            | Some r' => Some (VNull, r')
            | None => None
            end
          else if Ascii.eqb c "t" then
            match expect "rue" r with
            | Some r' => Some (VBool true, r')
            | None => None
            end
          else if Ascii.eqb c "f" then
            match expect "alse" r with
            | Some r' => Some (VBool false, r')
            | None => None
            end
          else if Ascii.eqb c DQUOTE then
            match parse_string_body r with
            | Some (t, r') => Some (VStr t, r')
            | None => None
            end
          else if Ascii.eqb c "[" then
            match next_is "]" (skip_ws r) with
            | Some r' => Some (VArr [], r')
            | None =>
                match parse_elems fuel' r with
                | Some (l, r') => Some (VArr l, r')
                | None => None
                end
            end
          else if Ascii.eqb c "{" then
            match next_is "}" (skip_ws r) with
            | Some r' => Some (VObj [], r')
            | None =>
                match parse_members fuel' r with
                | Some (ms, r') =>
                    Some (VObj (object_of ms), r')
                | None => None
                end
            end
          else parse_number (String c r)
      end
  end

with parse_elems (fuel : nat) (s : string) {struct fuel}
  : option (list Value * string) :=
  match fuel with
  | O => None
  | S fuel' =>
      match parse_value fuel' s with
      | None => None
      | Some (v, r) =>
          match next_is "," (skip_ws r) with
          | Some r' =>
              match parse_elems fuel' r' with
              | Some (l, r'') => Some (v :: l, r'')
              | None => None
              end
          | None =>
              match next_is "]" (skip_ws r) with
              | Some r' => Some ([v], r')
              | None => None
              end
          end
      end
  end

with parse_members (fuel : nat) (s : string) {struct fuel}
  : option (list (string * Value) * string) :=
  match fuel with
  | O => None
  | S fuel' =>
      match next_is DQUOTE (skip_ws s) with
      | None => None
      | Some r =>
          match parse_string_body r with
          | None => None
          | Some (k, r1) =>
              match next_is ":" (skip_ws r1) with
              | None => None
              | Some r2 =>
                  match parse_value fuel' r2 with
                  | None => None
                  | Some (v, r3) =>
                      match next_is "," (skip_ws r3) with
                      | Some r4 =>
                          match parse_members fuel' r4 with
                          | Some (ms, r5) => Some ((k, v) :: ms, r5)
                          | None => None
                          end
                      | None =>
                          match next_is "}" (skip_ws r3) with
                          | Some r4 => Some ([(k, v)], r4)
                          | None => None
                          end
                      end
                  end
              end
          end
      end
  end.

(** [JSON.parse(s)]; [None] stands for the [SyntaxError]. *)
Definition parse (s : string) : option Value :=
  match parse_value (S (String.length s)) s with
  | Some (v, rest) =>
      match skip_ws rest with
      | "" => Some v
      | _ => None
      end
  | None => None
  end.

End JSON.
Import JSON.

(* ================================================================== *)
(** * Strings and keys *)

Fixpoint drop_last (s : string) : string :=
  match s with
  | "" => ""
  | String c r =>
      match r with
      | "" => ""
      | String _ _ => String c (drop_last r)
      end
  end.

(** [s.slice(1, -1)] *)
Definition slice_1_neg1 (s : string) : string :=
  match s with
  | "" => ""
  | String _ r => drop_last r
  end.

(** The string a value turns into when it is used as a property key. *)
Fixpoint ToString (v : Value) : string :=
  match v with
  | VNull => "null"
  | VBool true => "true"
  | VBool false => "false"
  | VNum z => string_of_Z z
  | VStr s => s
  | VArr l =>
      (fix join (l : list Value) : string :=
         match l with
         | [] => ""
         | x :: l' =>
             let e := match x with VNull => "" | _ => ToString x end in
             match l' with
             | [] => e
             | _ :: _ => (e ++ String "," (join l'))%string
             end
         end) l
  | VObj _ => "[object Object]"
  end.

Definition to_key (v : option Value) : string :=
  match v with
  | None => "undefined"
  | Some x => ToString x
  end.

(** A [Set] of strings, in insertion order. *)
Definition Set_add (x : string) (s : list string) : list string :=
  if mem_string x s then s else s ++ [x].

(** [new Set(l)] *)
Definition Set_of (l : list string) : list string :=
  fold_left (fun s x => Set_add x s) l [].

(* ================================================================== *)
(** * The m-ld library, as far as the condition uses it *)

(** A subject is a JSON-LD object; its identity is under ['@id']. *)
Definition Subject : Type := Obj.

(** [s['@id']] *)
Definition subject_id (s : Subject) : option Value := obj_get "@id" s.

(** A [GraphUpdate]: the subjects deleted and the subjects inserted. *)
Record GraphUpdate : Type := mkGraphUpdate {
  at_delete : list Subject;
  at_insert : list Subject
}.

(** Modelled from the spec: m-ld's [array] helper, which this repository
    imports: a proof value is "a single token or a collection containing
    one", so nothing gives the empty list, an array gives its non-null
    elements and any other value the list of itself. *)
Definition array (v : option Value) : list Value :=
  match v with
  | None => []
  | Some VNull => []
  | Some (VArr l) => filter (fun x => negb (is_nullish (Some x))) l
  | Some x => [x]
  end.

(** Modelled from the spec: m-ld's [isPropertyObject], which this
    repository imports: "non-property keys such as '@id' are skipped"; a key
    names a property when it is neither ['@id'] nor ['@context'] and it has
    a value. *)
Definition isPropertyObject (property : string) (object : option Value) : bool :=
  negb (String.eqb property "@context")
  && negb (String.eqb property "@id")
  && negb (is_nullish object).

(** Modelled from the spec: m-ld's [includesValue], which this repository
    imports: the subject's "values for that property include that value";
    when the value is an array every member has to be included. *)
Definition includesValue (subject : Subject) (property : string) (value : Value)
  : bool :=
  forallb (fun v => existsb (Value_eqb v) (array (obj_get property subject)))
          (array (Some value)).

(** Modelled from the spec: part of m-ld's [updateSubject]: the subject of
    a graph with a given identity ("a subject with the same entity
    identifier"). *)
Definition graph_get (g : list Subject) (id : option Value) : option Subject :=
  find (fun s => strict_eq (subject_id s) id) g.

(** [s?.[property]] *)
Definition optional_get (s : option Subject) (property : string) : option Value :=
  match s with
  | Some o => obj_get property o
  | None => None
  end.

(** Modelled from the spec: part of m-ld's [updateSubject]: a "set of
    current values" gains a value unless it has it. *)
Definition add_value (acc : list Value) (v : Value) : list Value :=
  if existsb (Value_eqb v) acc then acc else acc ++ [v].

(** Modelled from the spec: part of m-ld's [updateSubject]: "the
    per-property value sets after" the update, as a property object: the
    single value itself, an array of several, and nothing when no value is
    left. *)
Definition updateValues (old deletes inserts : option Value) : option Value :=
  let kept :=
    filter (fun v => negb (existsb (Value_eqb v) (array deletes))) (array old) in
  let values := fold_left add_value (array inserts) kept in
  match values with
  | [] => None
  | [v] => Some v
  | _ => Some (VArr values)
  end.

(** A property gets its values, or goes when it has none. *)
Definition obj_assign (k : string) (v : option Value) (o : Obj) : Obj :=
  match v with
  | Some x => obj_set k x o
  | None => obj_remove k o
  end.

(** Modelled from the spec: part of m-ld's [updateSubject]: one property
    of a subject loses the deleted values and gains the inserted ones; the
    "non-property keys such as '@id'" are untouched. *)
Definition update_step (deletes inserts : option Subject) (s : Subject)
    (property : string) : Subject :=
  if String.eqb property "@id" || String.eqb property "@context" then s
  else obj_assign property
         (updateValues (obj_get property s)
                       (optional_get deletes property)
                       (optional_get inserts property)) s.

(** Modelled from the spec: m-ld's [updateSubject], which this repository
    imports: it must "apply the delta's own inserts/deletes on top of the
    fetched values" of the subject, for every property of the subject or of
    the inserts for it; a property left without a value is left out, so
    that a subject "deleted entirely ... has an empty property-value
    mapping". *)
Definition updateSubject (subject : Subject) (update : GraphUpdate) : Subject :=
  let deletes := graph_get (at_delete update) (subject_id subject) in
  let inserts := graph_get (at_insert update) (subject_id subject) in
  let inserted_keys := match inserts with Some i => Object_keys i | None => [] end in
  fold_left (update_step deletes inserts)
            (Set_of (Object_keys subject ++ inserted_keys)) subject.

(** Modelled from the spec: the replicated store's read handle, "scoped to
    one snapshot-in-time": the subjects of the domain at that time. *)
Definition MeldReadState : Type := list Subject.

(** Modelled from the spec: [state.get(id, ...properties)], a
    "mapping property -> values | absent-if-entity-unknown" holding the
    "current values for exactly those properties". *)
Definition state_lookup (state : MeldReadState) (id : string) (properties : list string)
  : option Subject :=
  match find (fun s => String.eqb (to_key (subject_id s)) id) state with
  | None => None
  | Some s =>
      Some (("@id", VStr id)
              :: filter (fun kv => negb (String.eqb (fst kv) "@id")
                                   && mem_string (fst kv) properties) s)
  end.

(* ================================================================== *)
(** * Iroha *)

(** "Must conform to [A-Za-z0-9_]{1,64}" *)
Definition PROOF_KEY_PREFIX : string := "pk_".

(** A letter, a digit or the underscore. *)
Definition is_key_char (c : ascii) : bool :=
  let n := nat_of_ascii c in
  (Nat.leb 65 n && Nat.leb n 90) || (Nat.leb 97 n && Nat.leb n 122)
  || (Nat.leb 48 n && Nat.leb n 57) || Nat.eqb n 95.

Fixpoint all_chars (p : ascii -> bool) (s : string) : bool :=
  match s with
  | "" => true
  | String c r => p c && all_chars p r
  end.

(** The keys that Iroha accepts for an account detail. *)
Definition valid_detail_key (k : string) : bool :=
  all_chars is_key_char k
  && Nat.leb 1 (String.length k) && Nat.leb (String.length k) 64.

(** Modelled from the spec: the ledger's value channel, in which "one level
    of escaping is lost in transit": the submitted text is read as the
    inside of a JSON string, and refused when it is not one. *)
Definition iroha_unescape (wire : string) : option string :=
  match parse_string_body (wire ++ String DQUOTE "") with
  | Some (s, "") => Some s
  | _ => None
  end.

(* ================================================================== *)
(** * The world and its monad *)

(** What the condition asks of its collaborators: a read of the state,
    random bytes, a command to Iroha and a query of it. *)
Inductive Event : Type :=
| StateGet (id : string) (properties : list string)
| RandomBytes (n : nat)
| SetAccountDetail (accountId key value : string)
| GetAccountDetail (accountId key : string).

(** The world: the details of the Iroha accounts (account, key and
    value), whether Iroha can be reached, the random source with the number
    of bytes drawn from it, and the interactions so far. *)
Record World : Type := mkWorld {
  details : list (string * string * string);
  online : bool;
  noise : nat -> ascii;
  drawn : nat;
  trace : list Event
}.

(** A promise, once settled: resolved with a value or rejected. *)
Inductive Outcome (A : Type) : Type :=
| Returned (a : A)
| Thrown (error : string).
Arguments Returned {A} a.
Arguments Thrown {A} error.

(** An asynchronous computation. *)
Definition M (A : Type) : Type := World -> Outcome A * World.

(** [return a], [throw e] and [await]. *)
Definition ret {A : Type} (a : A) : M A := fun w => (Returned a, w).

Definition throw {A : Type} (e : string) : M A := fun w => (Thrown e, w).

Definition bind {A B : Type} (m : M A) (k : A -> M B) : M B :=
  fun w =>
    match m w with
    | (Returned a, w') => k a w'
    | (Thrown e, w') => (Thrown e, w')
    end.

Notation "x <- m ;; k" := (bind m (fun x => k))
  (at level 61, m at next level, right associativity).

(** An interaction is added to the trace. *)
Definition log (e : Event) : M unit :=
  fun w => (Returned tt,
            mkWorld (details w) (online w) (noise w) (drawn w) (trace w ++ [e])).

(** [Promise.all(l.map(f))], the calls made in the order of the list. *)
Fixpoint mapM {A B : Type} (f : A -> M B) (l : list A) : M (list B) :=
  match l with
  | [] => ret []
  | x :: l' => y <- f x ;; ys <- mapM f l' ;; ret (y :: ys)
  end.

(** A computation that leaves the world alone. *)
Definition lift {A : Type} (o : Outcome A) : M A := fun w => (o, w).

(** [await state.get(id, ...properties)] *)
Definition state_get (state : MeldReadState) (id : string) (properties : list string)
  : M (option Subject) :=
  _ <- log (StateGet id properties) ;;
  ret (state_lookup state id properties).

Definition hex_byte (c : ascii) : string :=
  String (hex_digit (nat_of_ascii c / 16))
         (String (hex_digit (nat_of_ascii c mod 16)) "").

(** [bytes.toString('hex')] *)
Fixpoint toString_hex (bytes : list ascii) : string :=
  match bytes with
  | [] => ""
  | c :: r => hex_byte c ++ toString_hex r
  end.

Module crypto.

(** [crypto.randomBytes(n)]: the next [n] bytes of the random source. *)
Definition randomBytes (n : nat) : M (list ascii) :=
  fun w => (Returned (map (noise w) (seq (drawn w) n)),
            mkWorld (details w) (online w) (noise w) (drawn w + n)
                    (trace w ++ [RandomBytes n])).

End crypto.

(** The detail of an account under a key, and its writing. *)
Fixpoint details_get (account key : string) (d : list (string * string * string))
  : option string :=
  match d with
  | [] => None
  | (a, k, v) :: d' =>
      if String.eqb a account && String.eqb k key then Some v
      else details_get account key d'
  end.

Fixpoint details_set (account key value : string) (d : list (string * string * string))
  : list (string * string * string) :=
  match d with
  | [] => [(account, key, value)]
  | (a, k, v) :: d' =>
      if String.eqb a account && String.eqb k key then (a, k, value) :: d'
      else (a, k, v) :: details_set account key value d'
  end.

(** Modelled from the spec: the ledger client's "command submission
    operation (write a signed key/value record, durable once
    acknowledged)", which fails when the ledger is unavailable or refuses
    the record. *)
Definition iroha_setAccountDetail (accountId key value : string) : M unit :=
  _ <- log (SetAccountDetail accountId key value) ;;
  fun w =>
    if negb (online w) then (Thrown "Iroha unavailable", w)
    else if negb (valid_detail_key key) then (Thrown "Iroha rejected the key", w)
    else match iroha_unescape value with
         | None => (Thrown "Iroha rejected the value", w)
         | Some stored =>
             (Returned tt,
              mkWorld (details_set accountId key stored (details w))
                      (online w) (noise w) (drawn w) (trace w))
         end.

(** Modelled from the spec: the ledger client's "query operation (read a
    key/value record by key)", with "value | absent" for a result. *)
Definition iroha_getAccountDetail (accountId key : string) : M (option string) :=
  _ <- log (GetAccountDetail accountId key) ;;
  fun w =>
    if negb (online w) then (Thrown "Iroha unavailable", w)
    else (Returned (details_get accountId key (details w)), w).

(* ================================================================== *)
(** * AffectedLoader *)

(** The loader of the subjects affected by an update, with the properties
    to load for each identity: an object of [Set]s in the source. *)
Record AffectedLoader : Type := mkAffectedLoader {
  affected : GraphUpdate;
  subjectPropertiesToLoad : list (string * list string)
}.

(** [subjectPropertiesToLoad[id]] and the assignment to it. *)
Fixpoint table_get (id : string) (t : list (string * list string))
  : option (list string) :=
  match t with
  | [] => None
  | (k, ps) :: t' => if String.eqb k id then Some ps else table_get id t'
  end.

Fixpoint table_set (id : string) (ps : list string) (t : list (string * list string))
  : list (string * list string) :=
  match t with
  | [] => [(id, ps)]
  | (k, qs) :: t' =>
      if String.eqb k id then (k, ps) :: t' else (k, qs) :: table_set id ps t'
  end.

Module AffectedLoader.

(** One turn of the loop of [addProperties]. *)
Definition addProperties_subject (t : list (string * list string)) (subject : Subject)
  : list (string * list string) :=
  let id := to_key (subject_id subject) in
  let t1 := match table_get id t with
            | Some _ => t
            | None => table_set id [] t
            end in
  fold_left
    (fun t property =>
       if isPropertyObject property (obj_get property subject)
       then match table_get id t with
            | Some ps => table_set id (Set_add property ps) t
            | None => t
            end
       else t)
    (Object_keys subject) t1.

(** [addProperties(subjects)] *)
Definition addProperties (this : AffectedLoader) (subjects : list Subject)
  : AffectedLoader :=
  mkAffectedLoader (affected this)
    (fold_left addProperties_subject subjects (subjectPropertiesToLoad this)).

(** [new AffectedLoader(affected)] *)
Definition new (affected : GraphUpdate) : AffectedLoader :=
  addProperties
    (addProperties (mkAffectedLoader affected []) (at_delete affected))
    (at_insert affected).

(** [load(state)] *)
Definition load (this : AffectedLoader) (state : MeldReadState) : M (list Subject) :=
  mapM (fun entry : string * list string =>
          let (id, props) := entry in
          found <- state_get state id props ;;
          ret (updateSubject
                 (match found with
                  | Some s => s
                  | None => [("@id", VStr id)]
                  end)
                 (affected this)))
       (subjectPropertiesToLoad this).

End AffectedLoader.

(* ================================================================== *)
(** * ConsensusCondition *)

(** The condition, with the Iroha account of the clones of its domain. *)
Record ConsensusCondition : Type := mkConsensusCondition {
  accountId : string
}.

(** The [ProofValue] [{ pid, state }]; a [pid] that is [undefined] is not
    written by [JSON.stringify]. *)
Definition ProofValue (pid : option Value) (state : list Subject) : Value :=
  VObj (match pid with
        | Some p => [("pid", p)]
        | None => []
        end ++ [("state", VArr (map VObj state))]).

(** [typeof v == 'string' && v.startsWith(PROOF_KEY_PREFIX)] *)
Definition proof_key_of (v : Value) : option string :=
  match v with
  | VStr s => if String.prefix PROOF_KEY_PREFIX s then Some s else None
  | _ => None
  end.

(** [array(proof).find(...)], for the elements that are proof keys. *)
Fixpoint find_proof_key (l : list Value) : option string :=
  match l with
  | [] => None
  | v :: l' =>
      match proof_key_of v with
      | Some k => Some k
      | None => find_proof_key l'
      end
  end.

(** [v[k]] for a key that no prototype defines; reading it off [null]
    throws. *)
Definition member (v : Value) (k : string) : Outcome (option Value) :=
  match v with
  | VNull => Thrown "TypeError"
  | VObj o => Returned (obj_get k o)
  | _ => Returned None
  end.

(** The test of [proved.state.find(...)] on one proved subject. *)
Definition matches (provedSubject : Value) (subject : Subject)
    (property : string) (value : Value) : Outcome bool :=
  match provedSubject with
  | VNull => Thrown "TypeError"
  | VObj o =>
      Returned (strict_eq (obj_get "@id" o) (subject_id subject)
                && includesValue o property value)
  | _ =>
      Returned (strict_eq None (subject_id subject)
                && includesValue [] property value)
  end.

(** [l.find(...) != null] *)
Fixpoint find_matching (l : list Value) (subject : Subject)
    (property : string) (value : Value) : Outcome bool :=
  match l with
  | [] => Returned false
  | x :: l' =>
      match matches x subject property value with
      | Thrown e => Thrown e
      | Returned true => Returned true
      | Returned false => find_matching l' subject property value
      end
  end.

(** [proved.state.find(...) != null]; a state that is not an array has
    no [find] to call. *)
Definition proved_state_find (provedState : option Value) (subject : Subject)
    (property : string) (value : Value) : Outcome bool :=
  match provedState with
  | Some (VArr l) => find_matching l subject property value
  | _ => Thrown "TypeError"
  end.

(** The inner loop of [test], over the entries of one subject: [true]
    when the loop runs to its end. *)
Fixpoint test_entries (provedState : option Value) (subject : Subject)
    (entries : Obj) : Outcome bool :=
  match entries with
  | [] => Returned true
  | (property, value) :: rest =>
      if isPropertyObject property (Some value) then
        match proved_state_find provedState subject property value with
        | Thrown e => Thrown e
        | Returned false => Returned false
        | Returned true => test_entries provedState subject rest
        end
      else test_entries provedState subject rest
  end.

(** The outer loop of [test], over the subjects of the actual state. *)
Fixpoint test_subjects (provedState : option Value) (actualState : list Subject)
  : Outcome bool :=
  match actualState with
  | [] => Returned true
  | subject :: rest =>
      match test_entries provedState subject subject with
      | Thrown e => Thrown e
      | Returned false => Returned false
      | Returned true => test_subjects provedState rest
      end
  end.

Module ConsensusCondition.

(** The constructor, from the ['@domain'] of the configuration. *)
Definition new (domain : string) : ConsensusCondition :=
  mkConsensusCondition ("clone@" ++ domain)%string.

(** [setAccountDetail(key, value)]: "Iroha does not properly escape the
    value". *)
Definition setAccountDetail (this : ConsensusCondition) (key value : string) : M unit :=
  iroha_setAccountDetail (accountId this) key
    (slice_1_neg1 (JSON.stringify (VStr value))).

(** [getAccountDetail(key)] *)
Definition getAccountDetail (this : ConsensusCondition) (key : string)
  : M (option string) :=
  iroha_getAccountDetail (accountId this) key.

(** [prove(state, affected, principalRef)] *)
Definition prove (this : ConsensusCondition) (state : MeldReadState)
    (affected : GraphUpdate) (principalRef : option Subject) : M Value :=
  match principalRef with
  | None => ret (VBool false)
  | Some principal =>
      provedState <- AffectedLoader.load (AffectedLoader.new affected) state ;;
      bytes <- crypto.randomBytes 16 ;;
      let proofKey := (PROOF_KEY_PREFIX ++ toString_hex bytes)%string in
      _ <- setAccountDetail this proofKey
             (JSON.stringify (ProofValue (subject_id principal) provedState)) ;;
      ret (VStr proofKey)
  end.

(** [test(state, affected, proof, principalRef)] *)
Definition test (this : ConsensusCondition) (state : MeldReadState)
    (affected : GraphUpdate) (proof : option Value) (principalRef : option Subject)
  : M Value :=
  match principalRef with
  | None => ret (VStr "No principal in update")
  | Some principal =>
      match find_proof_key (array proof) with
      | None => ret (VStr "No proof key in update")
      | Some proofKey =>
          proofValue <- getAccountDetail this proofKey ;;
          match proofValue with
          | None => ret (VStr "No proof in ledger")
          | Some text =>
              match JSON.parse text with
              | None => throw "SyntaxError"
              | Some proved =>
                  pid <- lift (member proved "pid") ;;
                  if negb (strict_eq pid (subject_id principal))
                  then ret (VStr "Proof principal does not match update principal")
                  else
                    actualState <-
                      AffectedLoader.load (AffectedLoader.new affected) state ;;
                    provedState <- lift (member proved "state") ;;
                    matched <- lift (test_subjects provedState actualState) ;;
                    if matched then ret (VBool true)
                    else ret (VStr "Proof does not match update")
              end
          end
      end
  end.

End ConsensusCondition.

(* ================================================================== *)
(** * Notions used to state the properties *)

(** Induction on values, with the elements of arrays and objects. *)
Section ValueInduction.
Variable P : Value -> Prop.
Hypothesis Hnull : P VNull.
Hypothesis Hbool : forall b, P (VBool b).
Hypothesis Hnum : forall z, P (VNum z).
Hypothesis Hstr : forall s, P (VStr s).
Hypothesis Harr : forall l, Forall P l -> P (VArr l).
Hypothesis Hobj : forall o, Forall (fun kv => P (snd kv)) o -> P (VObj o).

Fixpoint Value_ind (v : Value) : P v :=
  match v with
  | VNull => Hnull
  | VBool b => Hbool b
  | VNum z => Hnum z
  | VStr s => Hstr s
  | VArr l =>
      Harr l ((fix all (l : list Value) : Forall P l :=
                 match l with
                 | [] => Forall_nil P
                 | x :: l' => Forall_cons x (Value_ind x) (all l')
                 end) l)
  | VObj o =>
      Hobj o ((fix all (o : Obj) : Forall (fun kv => P (snd kv)) o :=
                 match o with
                 | [] => Forall_nil _
                 | kv :: o' => Forall_cons kv (Value_ind (snd kv)) (all o')
                 end) o)
  end.
End ValueInduction.

(** What may follow a number for it to be read back whole. *)
Definition follow_ok (rest : string) : bool :=
  match rest with
  | "" => true
  | String c _ =>
      negb (is_digit c)
      && negb (Ascii.eqb c "." || Ascii.eqb c "e" || Ascii.eqb c "E")
  end.

(** The head of a printed value: no blank, and no closing or separating
    sign. *)
Definition value_start (s : string) : bool :=
  match s with
  | "" => false
  | String c _ =>
      negb (is_ws c) && negb (Ascii.eqb c "]") && negb (Ascii.eqb c "}")
      && negb (Ascii.eqb c ",")
  end.

Definition leading_nonzero (u : uint) : bool :=
  match u with
  | Nil | D0 _ => false
  | _ => true
  end.

(** A printed value is read back, whatever follows it. *)
Definition reads_back (v : Value) : Prop :=
  forall fuel rest,
    wf_value v = true -> follow_ok rest = true ->
    String.length (JSON.stringify v) <= fuel ->
    parse_value fuel (JSON.stringify v ++ rest) = Some (v, rest).

(** The world after some more interactions. *)
Definition add_trace (w : World) (es : list Event) : World :=
  mkWorld (details w) (online w) (noise w) (drawn w) (trace w ++ es).

(** The subject that [load] starts from: what the state has of the
    requested properties, or the bare identity. *)
Definition base_subject (state : MeldReadState) (id : string) (props : list string)
  : Subject :=
  match state_lookup state id props with
  | Some s => s
  | None => [("@id", VStr id)]
  end.

(** The list that [load] resolves to. *)
Definition final_state (this : AffectedLoader) (state : MeldReadState) : list Subject :=
  map (fun entry => updateSubject (base_subject state (fst entry) (snd entry))
                                  (affected this))
      (subjectPropertiesToLoad this).

(** The reads of the state that [load] makes. *)
Definition reads (this : AffectedLoader) : list Event :=
  map (fun entry => StateGet (fst entry) (snd entry)) (subjectPropertiesToLoad this).

(** The subjects of an update, deleted first. *)
Definition subjects_of (u : GraphUpdate) : list Subject := at_delete u ++ at_insert u.

(** The update mentions property [p] for the entity [id]. *)
Definition mentions (subjects : list Subject) (id p : string) : Prop :=
  exists s, In s subjects /\ to_key (subject_id s) = id
            /\ isPropertyObject p (obj_get p s) = true.

(** The entities of an update. *)
Definition entity_of (subjects : list Subject) (id : string) : Prop :=
  exists s, In s subjects /\ to_key (subject_id s) = id.

(** The fact [(s['@id'], p, v)] is in the proved state [ps]. *)
Definition contained (ps : list Value) (s : Subject) (p : string) (v : Value) : Prop :=
  exists o, In (VObj o) ps
            /\ strict_eq (subject_id o) (subject_id s) = true
            /\ includesValue o p v = true.

(** Every fact of the actual state is in the proved state. *)
Definition corroborated (ps : list Value) (actual : list Subject) : Prop :=
  forall s, In s actual ->
  forall p v, In (p, v) s -> isPropertyObject p (Some v) = true ->
  contained ps s p v.

Definition is_object (v : Value) : bool :=
  match v with
  | VObj _ => true
  | _ => false
  end.

(** The ledger queries of a trace. *)
Definition is_query (e : Event) : bool :=
  match e with
  | GetAccountDetail _ _ => true
  | _ => false
  end.

Definition is_primitive (v : option Value) : bool :=
  match v with
  | Some (VArr _) | Some (VObj _) => false
  | _ => true
  end.

Definition wf_subjects (l : list Subject) : bool := forallb wf_obj l.

Definition wf_update (u : GraphUpdate) : bool :=
  wf_subjects (at_delete u) && wf_subjects (at_insert u).

(** What the table of an [AffectedLoader] says: [id] has an entry, and [p]
    is in the entry of [id]. *)
Definition table : Type := list (string * list string).

Definition listed (t : table) (id : string) : Prop := In id (map fst t).

Definition to_load (t : table) (id p : string) : Prop :=
  exists ps, table_get id t = Some ps /\ In p ps.

(** The loop of [addProperties] over the keys of one subject. *)
Definition add_keys (subject : Subject) (id : string) (ks : list string) (t : table)
  : table :=
  fold_left
    (fun t property =>
       if isPropertyObject property (obj_get property subject)
       then match table_get id t with
            | Some ps => table_set id (Set_add property ps) t
            | None => t
            end
       else t)
    ks t.


(** An update that deletes the name of [fred]. *)
Definition delete_fred : GraphUpdate :=
  mkGraphUpdate [[("@id", VStr "fred"); ("name", VStr "Fred")]] [].

(** The proved state [ps'] has every subject of [ps], with at least its
    properties. *)
Definition covers (ps ps' : list Value) : Prop :=
  forall o, In (VObj o) ps ->
  exists o', In (VObj o') ps'
             /\ subject_id o' = subject_id o
             /\ forall k v, obj_get k o = Some v -> obj_get k o' = Some v.

(* ================================================================== *)
(** * The Iroha domain of the clones *)

(** A command of an Iroha transaction, among those that [IrohaMeldDomain]
    asks its builders for. *)
Inductive Command : Type :=
| CreateDomain (domainId defaultRole : string)
| CreateAccount (accountName domainId publicKey : string)
| AddSignatory (accountId publicKey : string).

(** A transaction as the calls on its [TxBuilder] describe it: the
    commands, the creator and the quorum given to [addMeta], and the
    private keys given to [sign]. *)
Record Transaction : Type := mkTransaction {
  commands : list Command;
  creatorAccountId : string;
  quorum : nat;
  signedWith : list string
}.

(** The builder of [iroha-helpers], as far as the repository calls it. *)
Module TxBuilder.

(** [new TxBuilder()] *)
Definition new : Transaction := mkTransaction [] "" 0 [].

Definition add (c : Command) (tx : Transaction) : Transaction :=
  mkTransaction (commands tx ++ [c]) (creatorAccountId tx) (quorum tx) (signedWith tx).

(** [.createDomain({ domainId, defaultRole })] *)
Definition createDomain (domainId defaultRole : string) : Transaction -> Transaction :=
  add (CreateDomain domainId defaultRole).

(** [.createAccount({ accountName, domainId, publicKey })] *)
Definition createAccount (accountName domainId publicKey : string)
  : Transaction -> Transaction :=
  add (CreateAccount accountName domainId publicKey).

(** [.addSignatory({ accountId, publicKey })] *)
Definition addSignatory (accountId publicKey : string) : Transaction -> Transaction :=
  add (AddSignatory accountId publicKey).

(** [.addMeta(creatorAccountId, quorum)] *)
Definition addMeta (creator : string) (q : nat) (tx : Transaction) : Transaction :=
  mkTransaction (commands tx) creator q (signedWith tx).

(** [.sign(privateKeys)] *)
Definition sign (privateKeys : list string) (tx : Transaction) : Transaction :=
  mkTransaction (commands tx) (creatorAccountId tx) (quorum tx)
                (signedWith tx ++ privateKeys).

End TxBuilder.

(** A batch of transactions, with the type given to [setBatchMeta]. *)
Record Batch : Type := mkBatch {
  transactions : list Transaction;
  batchType : option nat
}.

Module BatchBuilder.

(** [new BatchBuilder(txs)] *)
Definition new (txs : list Transaction) : Batch := mkBatch txs None.

(** [.setBatchMeta(type)] *)
Definition setBatchMeta (type : nat) (b : Batch) : Batch :=
  mkBatch (transactions b) (Some type).

Fixpoint sign_at (privateKeys : list string) (index : nat) (txs : list Transaction)
  : list Transaction :=
  match txs, index with
  | [], _ => []
  | tx :: txs', O => TxBuilder.sign privateKeys tx :: txs'
  | tx :: txs', S i => tx :: sign_at privateKeys i txs'
  end.

(** [.sign(privateKeys, index)]: the transaction at [index] is signed. *)
Definition sign (privateKeys : list string) (index : nat) (b : Batch) : Batch :=
  mkBatch (sign_at privateKeys index (transactions b)) (batchType b).

End BatchBuilder.

(** The utility that initialises Iroha with a m-ld domain and registers
    users; its command service is the world. *)
Record IrohaMeldDomain : Type := mkIrohaMeldDomain {
  domainId : string;
  adminId : string;
  adminEd25519PrivateKey : string
}.

(** The identifier that Iroha gives to the account [accountName] of the
    domain [domain], as the repository's tests of the Iroha API use it for
    the account [clone] of [test.m-ld.org]. *)
Definition account_of (accountName domain : string) : string :=
  (accountName ++ "@" ++ domain)%string.

Module IrohaMeldDomain.

(** [get accountId()] *)
Definition accountId (this : IrohaMeldDomain) : string :=
  ("clone@" ++ domainId this)%string.

(** The batch that [initialise({ defaultRole,
    firstPrincipalEd25519PublicKey })] sends. *)
Definition initialise (this : IrohaMeldDomain)
    (defaultRole firstPrincipalEd25519PublicKey : string) : Batch :=
  BatchBuilder.sign [adminEd25519PrivateKey this] 1
    (BatchBuilder.sign [adminEd25519PrivateKey this] 0
       (BatchBuilder.setBatchMeta 0
          (BatchBuilder.new
             [TxBuilder.addMeta (adminId this) 1
                (TxBuilder.createDomain (domainId this) defaultRole TxBuilder.new);
              TxBuilder.addMeta (adminId this) 1
                (TxBuilder.createAccount "clone" (domainId this)
                   firstPrincipalEd25519PublicKey TxBuilder.new)]))).

(** The transaction that [registerPrincipal(newEd25519PublicKey,
    existingEd25519PrivateKey)] sends. *)
Definition registerPrincipal (this : IrohaMeldDomain)
    (newEd25519PublicKey existingEd25519PrivateKey : string) : Transaction :=
  TxBuilder.sign [existingEd25519PrivateKey]
    (TxBuilder.addMeta (accountId this) 1
       (TxBuilder.addSignatory (accountId this) newEd25519PublicKey TxBuilder.new)).

End IrohaMeldDomain.

(* ================================================================== *)
(** * Further notions *)


(** The interactions that change nothing: a read of the state and a query
    of the ledger. *)
Definition is_read (e : Event) : bool :=
  match e with
  | StateGet _ _ | GetAccountDetail _ _ => true
  | _ => false
  end.

(** The reads of the state. *)
Definition is_state_read (e : Event) : bool :=
  match e with
  | StateGet _ _ => true
  | _ => false
  end.

(** The reasons that [test] gives for a failure. *)
Definition reasons : list string :=
  ["No principal in update"; "No proof key in update"; "No proof in ledger";
   "Proof principal does not match update principal"; "Proof does not match update"].

(** The subject has an entry that is a property. *)
Definition has_property (s : Subject) : bool :=
  existsb (fun kv => isPropertyObject (fst kv) (Some (snd kv))) s.

Definition is_array (v : option Value) : bool :=
  match v with
  | Some (VArr _) => true
  | _ => false
  end.

(** A code unit from the space on: none of the control characters, which
    a JSON string does not hold as they are. *)
Definition from_space (c : ascii) : bool := Nat.leb 32 (nat_of_ascii c).



(* ================================================================== *)
(** * Examples *)

Definition example_condition : ConsensusCondition :=
  ConsensusCondition.new "test.m-ld.org".

Definition alice : Subject := [("@id", VStr "https://alice.example/profile#me")].

Definition bob : Subject := [("@id", VStr "https://bob.example/profile#me")].

(** The update of the repository's own test: [fred] gets a name. *)
Definition insert_fred : GraphUpdate :=
  mkGraphUpdate [] [[("@id", VStr "fred"); ("name", VStr "Fred")]].

(** A world with an empty ledger. *)
Definition example_world : World :=
  mkWorld [] true (fun n => ascii_of_nat (7 * n + 3)) 0 [].

(** The world after Alice has proved [insert_fred] in [example_world]. *)
Definition proved_world : World :=
  snd (ConsensusCondition.prove example_condition [] insert_fred (Some alice)
         example_world).

Definition proved_key : string :=
  match fst (ConsensusCondition.prove example_condition [] insert_fred (Some alice)
               example_world) with
  | Returned (VStr k) => k
  | _ => ""
  end.

(** A commitment of Alice with more than the name of [fred]. *)
Definition wide_commitment : Value :=
  ProofValue (subject_id alice)
    [[("@id", VStr "fred"); ("name", VArr [VStr "Fred"; VStr "Freddy"]);
      ("age", VNum 40)];
     [("@id", VStr "wilma"); ("name", VStr "Wilma")]].

(** A commitment of Alice with no subject at all. *)
Definition empty_commitment : Value := ProofValue (subject_id alice) [].

(** A world whose ledger holds a commitment under the key [pk_1]. *)
Definition world_with (commitment : Value) : World :=
  mkWorld [(accountId example_condition, "pk_1", JSON.stringify commitment)]
          true (fun n => ascii_of_nat n) 0 [].

(** A proof value with a token and something else. *)
Definition mixed_proof : option Value :=
  Some (VArr [VNum 7; VStr "unrelated-value"; VStr "pk_1"; VStr "pk_2"]).

(** The pattern of the repository's test of the Iroha API, "prove
    agreement": the state is one subject and not a list. *)
Definition pattern_commitment : Value :=
  VObj [("pid", VStr "https://alice.example/profile#me");
        ("state", VObj [("@id", VStr "fred"); ("name", VStr "Fred")])].

(** The commitment of [insert_fred], with its subject twice and [wilma]. *)
Definition shuffled_commitment : Value :=
  ProofValue (subject_id alice)
    [[("@id", VStr "wilma"); ("name", VStr "Wilma")];
     [("name", VStr "Fred"); ("@id", VStr "fred")];
     [("@id", VStr "wilma"); ("name", VStr "Wilma")]].

Definition plain_commitment : Value :=
  ProofValue (subject_id alice)
    [[("@id", VStr "fred"); ("name", VStr "Fred")];
     [("@id", VStr "wilma"); ("name", VStr "Wilma")]].

(** The state of a replica that knows [wilma] and [barney], and not
    [fred]. *)
Definition other_replica : MeldReadState :=
  [[("@id", VStr "wilma"); ("name", VStr "Wilma")];
   [("@id", VStr "barney"); ("age", VNum 40)]].


(** A principal without an identity. *)
Definition nobody : Subject := [("name", VStr "Nobody")].

(** The world of [example_world] with Iroha out of reach. *)
Definition offline_world : World :=
  mkWorld [] false (fun n => ascii_of_nat (7 * n + 3)) 0 [].

Definition example_domain : IrohaMeldDomain :=
  mkIrohaMeldDomain "test.m-ld.org" "admin@test" "admin-private-key".

(* ================================================================== *)
(** * Tactics *)

(** Closes a goal between closed terms by evaluation. *)
Ltac by_computation := vm_compute; reflexivity.

(** [test] has returned, or thrown, with nothing more in the trace. *)
Ltac stops := exists []; split; reflexivity.

(** Settles what [test] has returned against one reason. *)
Ltac settle_reason :=
  cbn [fst]; repeat split; intros;
  repeat match goal with
         | H : _ /\ _ |- _ => destruct H
         | H : exists _, _ |- _ => destruct H
         end;
  try discriminate; try congruence.

(** Two objects with the keys ['@id'] and [name] have the same
    properties. *)
Ltac same_properties :=
  let key := fresh "key" in
  let v := fresh "v" in
  intros key v; cbn [obj_get];
  destruct (String.eqb_spec "@id" key) as [<- |];
    [vm_compute; intros [= <-]; reflexivity|];
  destruct (String.eqb_spec "name" key) as [<- |];
    [vm_compute; intros [= <-]; reflexivity|];
  discriminate.

(* ================================================================== *)
(** * JSON: what is written is read back *)

(** ** Strings *)

Lemma append_assoc (a b c : string) : ((a ++ b) ++ c = a ++ (b ++ c))%string.
Proof. induction a as [|x a IH]; simpl; [reflexivity | now rewrite IH]. Qed.

Lemma append_nil_r (a : string) : (a ++ "" = a)%string.
Proof. induction a as [|x a IH]; simpl; [reflexivity | now rewrite IH]. Qed.

Lemma length_append (a b : string) :
  String.length (a ++ b) = String.length a + String.length b.
Proof. induction a as [|x a IH]; simpl; [reflexivity | now rewrite IH]. Qed.

Lemma drop_last_snoc (s : string) (c : ascii) : drop_last (s ++ String c "") = s.
Proof.
  induction s as [|x s IH]; simpl; [reflexivity|].
  destruct s as [|y s]; simpl in *; [reflexivity | now rewrite IH].
Qed.

Lemma parse_quote_char (c : ascii) (rest : string) :
  parse_string_body (quote_char c ++ rest) = cons_char c (parse_string_body rest).
Proof.
  destruct c as [[] [] [] [] [] [] [] []]; reflexivity.
Qed.

Lemma parse_quote_body (s rest : string) :
  parse_string_body (quote_body s ++ String DQUOTE rest) = Some (s, rest).
Proof.
  induction s as [|c s IH]; [reflexivity|].
  cbn [quote_body]. rewrite append_assoc, parse_quote_char, IH. reflexivity.
Qed.

Lemma slice_quote (s : string) : slice_1_neg1 (quote s) = quote_body s.
Proof. unfold quote, slice_1_neg1. apply drop_last_snoc. Qed.

Lemma iroha_unescape_quote (s : string) :
  iroha_unescape (slice_1_neg1 (JSON.stringify (VStr s))) = Some s.
Proof.
  cbn [JSON.stringify]. rewrite slice_quote. unfold iroha_unescape.
  now rewrite parse_quote_body.
Qed.

(** ** Numbers *)

Lemma read_digits_stop (rest : string) :
  follow_ok rest = true -> read_digits rest = (Nil, rest).
Proof.
  destruct rest as [|c r]; [reflexivity|]. cbn [follow_ok read_digits].
  unfold is_digit. destruct (digit_of c); [discriminate | reflexivity].
Qed.

Lemma read_digits_uint (u : uint) (rest : string) :
  follow_ok rest = true ->
  read_digits (NilEmpty.string_of_uint u ++ rest) = (u, rest).
Proof.
  intros H. induction u; cbn [NilEmpty.string_of_uint String.append];
    [now apply read_digits_stop | ..];
    cbn [read_digits]; cbn; rewrite IHu; reflexivity.
Qed.

Lemma to_uint_unorm (p : positive) : unorm (Pos.to_uint p) = Pos.to_uint p.
Proof.
  rewrite <- DecimalPos.Unsigned.to_of, DecimalPos.Unsigned.of_to. reflexivity.
Qed.

Lemma unorm_D0_shorter (u : uint) : unorm (D0 u) = D0 u -> u = Nil.
Proof.
  intros Hn. rewrite unorm_D0 in Hn.
  destruct u as [|u|u|u|u|u|u|u|u|u|u]; [reflexivity|..]; exfalso;
    match type of Hn with
    | unorm ?d = _ =>
        assert (Hle : nb_digits (unorm d) <= nb_digits d)
          by (apply nb_digits_unorm; discriminate);
        rewrite Hn in Hle; cbn [nb_digits] in Hle; lia
    end.
Qed.

Lemma to_uint_leading (p : positive) : leading_nonzero (Pos.to_uint p) = true.
Proof.
  pose proof (to_uint_unorm p) as Hn.
  pose proof (DecimalPos.Unsigned.to_uint_nonnil p) as Hnil.
  pose proof (DecimalPos.Unsigned.to_uint_nonzero p) as Hz.
  destruct (Pos.to_uint p) as [|u|u|u|u|u|u|u|u|u|u]; try reflexivity.
  - now elim Hnil.
  - apply unorm_D0_shorter in Hn. subst u. now elim Hz.
Qed.

Lemma int_literal_leading (u : uint) (rest : string) :
  leading_nonzero u = true -> follow_ok rest = true -> int_literal_ok u rest = true.
Proof.
  intros Hu Hr. unfold int_literal_ok.
  destruct u; try discriminate; cbn;
    (destruct rest as [|c r]; [reflexivity|]; cbn in Hr;
     apply andb_true_iff in Hr; destruct Hr as [_ Hr]; exact Hr).
Qed.

Lemma string_of_uint_leading (u : uint) :
  leading_nonzero u = true ->
  NilZero.string_of_uint u = NilEmpty.string_of_uint u.
Proof. destruct u; try discriminate; reflexivity. Qed.

Lemma parse_number_Z (z : Z) (rest : string) :
  follow_ok rest = true ->
  parse_number (string_of_Z z ++ rest) = Some (VNum z, rest).
Proof.
  intros Hr. unfold string_of_Z.
  destruct z as [|p|p]; cbn [Z.to_int NilZero.string_of_int].
  - cbn. rewrite (read_digits_stop _ Hr).
    replace (int_literal_ok (D0 Nil) rest) with true; [reflexivity|].
    symmetry. unfold int_literal_ok. cbn.
    destruct rest as [|c r]; [reflexivity|]. cbn in Hr.
    apply andb_true_iff in Hr. apply Hr.
  - pose proof (to_uint_leading p) as Hl.
    pose proof (DecimalZ.of_to (Z.pos p)) as Hz. cbn [Z.to_int] in Hz.
    rewrite (string_of_uint_leading _ Hl).
    assert (Hn : next_is "-" (NilEmpty.string_of_uint (Pos.to_uint p) ++ rest) = None).
    { destruct (Pos.to_uint p); try discriminate; reflexivity. }
    unfold parse_number. rewrite Hn, (read_digits_uint _ _ Hr).
    rewrite (int_literal_leading _ _ Hl Hr), Hz. reflexivity.
  - pose proof (to_uint_leading p) as Hl.
    pose proof (DecimalZ.of_to (Z.neg p)) as Hz. cbn [Z.to_int] in Hz.
    rewrite (string_of_uint_leading _ Hl).
    unfold parse_number. cbn [String.append next_is].
    replace (Ascii.eqb "-" "-") with true by reflexivity.
    rewrite (read_digits_uint _ _ Hr).
    rewrite (int_literal_leading _ _ Hl Hr), Hz. reflexivity.
Qed.

Lemma string_of_Z_head (z : Z) :
  exists c t, string_of_Z z = String c t /\
              (is_digit c = true \/ c = "-"%char).
Proof.
  unfold string_of_Z. destruct z as [|p|p]; cbn [Z.to_int NilZero.string_of_int].
  - exists "0"%char, "". split; [reflexivity | now left].
  - pose proof (to_uint_leading p) as Hl.
    rewrite (string_of_uint_leading _ Hl).
    destruct (Pos.to_uint p); try discriminate; cbn;
      eexists; eexists; (split; [reflexivity | now left]).
  - eexists; eexists; split; [reflexivity | now right].
Qed.

Lemma parse_value_number (fuel : nat) (z : Z) (rest : string) :
  parse_value (S fuel) (string_of_Z z ++ rest) = parse_number (string_of_Z z ++ rest).
Proof.
  destruct (string_of_Z_head z) as (c & t & -> & Hc).
  cbn [String.append parse_value skip_ws].
  destruct Hc as [Hc | ->]; [|reflexivity].
  unfold is_digit, digit_of in Hc.
  repeat match type of Hc with
         | context [Ascii.eqb c ?d] =>
             destruct (Ascii.eqb_spec c d) as [-> | _]; [reflexivity|]
         end.
  discriminate.
Qed.

(** ** Values *)

Lemma value_start_stringify (v : Value) (rest : string) :
  value_start (JSON.stringify v ++ rest) = true.
Proof.
  destruct v as [|[]|z|s|[|x l]|[|[k x] o]]; try reflexivity.
  cbn [JSON.stringify]. destruct (string_of_Z_head z) as (c & t & -> & Hc).
  cbn [String.append value_start].
  destruct Hc as [Hc | ->]; [|reflexivity].
  unfold is_digit, digit_of in Hc.
  repeat match type of Hc with
         | context [Ascii.eqb c ?d] =>
             destruct (Ascii.eqb_spec c d) as [-> | _]; [reflexivity|]
         end.
  discriminate.
Qed.

Lemma skip_ws_start (s : string) : value_start s = true -> skip_ws s = s.
Proof.
  destruct s as [|c r]; [discriminate|]. cbn [value_start skip_ws].
  destruct (is_ws c); [discriminate | reflexivity].
Qed.

Lemma next_is_start (s : string) :
  value_start s = true ->
  next_is "]" s = None /\ next_is "}" s = None /\ next_is "," s = None.
Proof.
  destruct s as [|c r]; [discriminate|]. cbn [value_start next_is].
  destruct (is_ws c), (Ascii.eqb c "]"), (Ascii.eqb c "}"), (Ascii.eqb c ",");
    cbn; intros H; try discriminate; auto.
Qed.

Lemma follow_ok_closing (c : ascii) (r : string) :
  c = "]"%char \/ c = "}"%char \/ c = ","%char -> follow_ok (String c r) = true.
Proof. intros [-> | [-> | ->]]; reflexivity. Qed.

Lemma obj_set_fresh (k : string) (v : Value) (o : Obj) :
  mem_string k (map fst o) = false -> obj_set k v o = o ++ [(k, v)].
Proof.
  induction o as [|[k' v'] o IH]; [reflexivity|].
  cbn [map fst mem_string existsb obj_set Datatypes.app]. intros H.
  apply orb_false_iff in H. destruct H as [Hk Ho].
  rewrite String.eqb_sym, Hk. f_equal. now apply IH.
Qed.

Lemma mem_string_app (k : string) (a b : list string) :
  mem_string k (a ++ b) = mem_string k a || mem_string k b.
Proof. unfold mem_string. apply existsb_app. Qed.

Lemma nodup_keys_app (a b : list string) :
  nodup_keys (a ++ b) = true ->
  nodup_keys a = true /\ nodup_keys b = true /\
  forall k, mem_string k a = true -> mem_string k b = false.
Proof.
  induction a as [|x a IH]; cbn [Datatypes.app nodup_keys]; intros H.
  - repeat split; auto. discriminate.
  - apply andb_true_iff in H. destruct H as [Hx Ha].
    apply negb_true_iff in Hx. rewrite mem_string_app in Hx.
    apply orb_false_iff in Hx. destruct Hx as [Hxa Hxb].
    destruct (IH Ha) as (Ha' & Hb & Hab).
    repeat split; auto.
    + now rewrite Hxa, Ha'.
    + intros k Hk. cbn [mem_string existsb] in Hk.
      apply orb_true_iff in Hk. destruct Hk as [Hk | Hk].
      * apply String.eqb_eq in Hk. now subst.
      * now apply Hab.
Qed.

Lemma fold_obj_set (ms acc : Obj) :
  nodup_keys (map fst (acc ++ ms)) = true ->
  fold_left (fun o kv => obj_set (fst kv) (snd kv) o) ms acc = acc ++ ms.
Proof.
  revert acc. induction ms as [|[k v] ms IH]; intros acc H.
  - now rewrite List.app_nil_r.
  - cbn [fold_left fst snd].
    replace (acc ++ (k, v) :: ms) with ((acc ++ [(k, v)]) ++ ms) in *
      by now rewrite <- List.app_assoc.
    rewrite obj_set_fresh; [now apply IH|].
    rewrite !List.map_app in H. apply nodup_keys_app in H.
    destruct H as (H & _ & _). apply nodup_keys_app in H.
    destruct H as (_ & _ & H).
    destruct (mem_string k (map fst acc)) eqn:E; [|reflexivity].
    apply H in E. cbn in E. now rewrite String.eqb_refl in E.
Qed.



Lemma elems_tail_length (l : list Value) :
  1 <= String.length (elems_tail JSON.stringify l).
Proof. destruct l; cbn; lia. Qed.

Lemma members_tail_length (o : Obj) :
  1 <= String.length (members_tail JSON.stringify o).
Proof. destruct o as [|[k v] o]; cbn; lia. Qed.

Lemma parse_elems_stringify (l : list Value) :
  Forall reads_back l -> forallb wf_value l = true ->
  forall x fuel rest,
    reads_back x -> wf_value x = true -> follow_ok rest = true ->
    String.length (JSON.stringify x) + String.length (elems_tail JSON.stringify l)
    <= fuel ->
    parse_elems fuel (JSON.stringify x ++ (elems_tail JSON.stringify l ++ rest))
    = Some (x :: l, rest).
Proof.
  induction 1 as [|y l Hy Hl IH]; intros Hwf x fuel rest Hx Hwx Hr Hlen.
  - cbn [elems_tail String.length] in *.
    destruct fuel as [|fuel]; [lia|]. cbn [parse_elems String.append].
    rewrite Hx; [|assumption|reflexivity|lia]. reflexivity.
  - cbn [forallb] in Hwf. apply andb_true_iff in Hwf. destruct Hwf as [Hwy Hwl].
    cbn [elems_tail String.length] in *. rewrite length_append in Hlen.
    destruct fuel as [|fuel]; [lia|]. cbn [parse_elems String.append].
    rewrite Hx; [|assumption|reflexivity|lia].
    cbn [skip_ws is_ws next_is]. cbn.
    rewrite append_assoc, IH; auto. lia.
Qed.

Lemma quote_append (k r : string) :
  (quote k ++ r)%string = String DQUOTE (quote_body k ++ String DQUOTE r).
Proof. unfold quote. cbn [String.append]. now rewrite append_assoc. Qed.

Lemma quote_length (k : string) :
  String.length (quote k) = 2 + String.length (quote_body k).
Proof. unfold quote. cbn [String.length]. rewrite length_append. cbn. lia. Qed.

Lemma parse_members_head (fuel : nat) (k r : string) :
  parse_members (S fuel) (quote k ++ String ":" r) =
  match parse_value fuel r with
  | None => None
  | Some (v, r3) =>
      match next_is "," (skip_ws r3) with
      | Some r4 =>
          match parse_members fuel r4 with
          | Some (ms, r5) => Some ((k, v) :: ms, r5)
          | None => None
          end
      | None =>
          match next_is "}" (skip_ws r3) with
          | Some r4 => Some ([(k, v)], r4)
          | None => None
          end
      end
  end.
Proof.
  rewrite quote_append. cbn [parse_members skip_ws].
  replace (is_ws DQUOTE) with false by reflexivity.
  cbn [next_is]. replace (Ascii.eqb DQUOTE DQUOTE) with true by reflexivity.
  rewrite parse_quote_body. reflexivity.
Qed.

Lemma parse_members_stringify (o : Obj) :
  Forall (fun kv => reads_back (snd kv)) o ->
  forallb (fun kv => wf_value (snd kv)) o = true ->
  forall k x fuel rest,
    reads_back x -> wf_value x = true -> follow_ok rest = true ->
    String.length (JSON.stringify x)
      + String.length (members_tail JSON.stringify o) <= fuel ->
    parse_members fuel
      (quote k ++
       String ":" (JSON.stringify x ++ (members_tail JSON.stringify o ++ rest)))
    = Some ((k, x) :: o, rest).
Proof.
  induction 1 as [|[k' y] o Hy Ho IH]; intros Hwf k x fuel rest Hx Hwx Hr Hlen.
  - cbn [members_tail String.length] in *.
    destruct fuel as [|fuel]; [lia|]. rewrite parse_members_head.
    cbn [String.append].
    rewrite Hx; [|assumption|reflexivity|lia]. reflexivity.
  - cbn [forallb snd] in Hwf. apply andb_true_iff in Hwf. destruct Hwf as [Hwy Hwl].
    cbn [snd] in Hy.
    cbn [members_tail String.length] in *. rewrite !length_append in Hlen.
    cbn [String.length] in Hlen. rewrite length_append in Hlen.
    destruct fuel as [|fuel]; [lia|]. rewrite parse_members_head.
    cbn [String.append].
    rewrite Hx; [|assumption|reflexivity|lia].
    cbn [skip_ws]. replace (is_ws ",") with false by reflexivity.
    cbn [next_is]. replace (Ascii.eqb "," ",") with true by reflexivity.
    rewrite !append_assoc. cbn [String.append]. rewrite append_assoc.
    rewrite IH; auto. lia.
Qed.

Lemma stringify_reads_back (v : Value) : reads_back v.
Proof.
  induction v as [|b|z|s|l IH|o IH] using Value_ind; intros fuel rest Hwf Hr Hlen.
  - destruct fuel; [cbn in Hlen; lia | reflexivity].
  - destruct fuel; [destruct b; cbn in Hlen; lia | destruct b; reflexivity].
  - cbn [JSON.stringify] in *.
    destruct fuel.
    + destruct (string_of_Z_head z) as (c & t & E & _). rewrite E in Hlen.
      cbn in Hlen. lia.
    + rewrite parse_value_number. now apply parse_number_Z.
  - cbn [JSON.stringify] in *. destruct fuel; [cbn in Hlen; lia|].
    unfold quote. cbn [String.append parse_value skip_ws]. cbn [is_ws]. cbn.
    rewrite append_assoc. cbn [String.append]. rewrite parse_quote_body. reflexivity.
  - destruct l as [|x l].
    + destruct fuel; [cbn in Hlen; lia | reflexivity].
    + cbn [JSON.stringify String.length] in *. rewrite length_append in Hlen.
      destruct fuel; [lia|].
      cbn [wf_value forallb] in Hwf. apply andb_true_iff in Hwf.
      destruct Hwf as [Hwx Hwl]. inversion IH as [|? ? Hx Hl]; subst.
      cbn [String.append parse_value skip_ws]. cbn [is_ws]. cbn.
      rewrite append_assoc.
      pose proof (value_start_stringify x (elems_tail JSON.stringify l ++ rest)) as Hs.
      rewrite (skip_ws_start _ Hs).
      destruct (next_is_start _ Hs) as (-> & _ & _).
      rewrite parse_elems_stringify; auto. lia.
  - destruct o as [|[k x] o].
    + destruct fuel; [cbn in Hlen; lia | reflexivity].
    + cbn [JSON.stringify String.length] in *. rewrite !length_append in Hlen.
      cbn [String.length] in Hlen. rewrite length_append in Hlen.
      destruct fuel; [lia|].
      cbn [wf_value] in Hwf. apply andb_true_iff in Hwf.
      destruct Hwf as [Hnd Hwf]. cbn [forallb snd] in Hwf.
      apply andb_true_iff in Hwf. destruct Hwf as [Hwx Hwl].
      inversion IH as [|? ? Hx Hl]; subst. cbn [snd] in Hx.
      cbn [String.append parse_value skip_ws]. cbn [is_ws]. cbn.
      rewrite !append_assoc. cbn [String.append]. rewrite append_assoc.
      rewrite <- quote_append.
      rewrite parse_members_stringify; auto; [|lia].
      unfold object_of. rewrite fold_obj_set; [reflexivity | exact Hnd].
Qed.

(** [JSON.parse] undoes [JSON.stringify]. *)
Lemma parse_stringify (v : Value) :
  wf_value v = true -> JSON.parse (JSON.stringify v) = Some v.
Proof.
  intros Hwf. unfold JSON.parse.
  pose proof (stringify_reads_back v (S (String.length (JSON.stringify v))) ""
                Hwf eq_refl (Nat.le_succ_diag_r _)) as H.
  rewrite append_nil_r in H. rewrite H. reflexivity.
Qed.

(* ================================================================== *)
(** * The snapshot builder *)

(** ** Running the monad *)

Lemma add_trace_nil (w : World) : add_trace w [] = w.
Proof. destruct w. unfold add_trace. cbn. now rewrite List.app_nil_r. Qed.

Lemma add_trace_app (w : World) (a b : list Event) :
  add_trace (add_trace w a) b = add_trace w (a ++ b).
Proof. unfold add_trace. cbn. now rewrite List.app_assoc. Qed.

Lemma state_get_run (state : MeldReadState) (id : string) (props : list string)
    (w : World) :
  state_get state id props w
  = (Returned (state_lookup state id props), add_trace w [StateGet id props]).
Proof. reflexivity. Qed.

Lemma mapM_load_run (u : GraphUpdate) (state : MeldReadState)
    (t : list (string * list string)) (w : World) :
  AffectedLoader.load (mkAffectedLoader u t) state w
  = (Returned (final_state (mkAffectedLoader u t) state),
     add_trace w (reads (mkAffectedLoader u t))).
Proof.
  unfold AffectedLoader.load, final_state, reads. cbn [affected subjectPropertiesToLoad].
  revert w. induction t as [|[id props] t IH]; intros w.
  - cbn. now rewrite add_trace_nil.
  - cbn [mapM map fst snd]. unfold bind at 1. unfold bind at 1.
    rewrite state_get_run. unfold ret at 1. unfold bind at 1.
    rewrite IH. unfold ret. rewrite add_trace_app. reflexivity.
Qed.

Lemma load_run (this : AffectedLoader) (state : MeldReadState) (w : World) :
  AffectedLoader.load this state w
  = (Returned (final_state this state), add_trace w (reads this)).
Proof. destruct this as [u t]. apply mapM_load_run. Qed.

(** C7 (no principal).  For every update and state, [prove] without a
    principal returns [false], and does not throw; the world is left as it
    was: nothing is written to the ledger and the state is not read. *)
Theorem prove_without_principal (this : ConsensusCondition) (state : MeldReadState)
    (affected : GraphUpdate) (w : World) :
  let (outcome, w') := ConsensusCondition.prove this state affected None w in
  outcome = Returned (VBool false)
  /\ w' = w /\ details w' = details w /\ trace w' = trace w.
Proof.
  unfold ConsensusCondition.prove, ret. repeat split.
Qed.

(* ================================================================== *)
(** * The proof key of [test] *)

Lemma find_proof_key_none (l : list Value) :
  find_proof_key l = None <-> forall v, In v l -> proof_key_of v = None.
Proof.
  induction l as [|x l IH]; cbn [find_proof_key]; split; intros H.
  - intros v [].
  - reflexivity.
  - destruct (proof_key_of x) eqn:E; [discriminate|].
    intros v [<- | Hv]; [assumption | now apply IH].
  - rewrite (H x (or_introl eq_refl)). apply IH. intros v Hv. apply H. now right.
Qed.

Lemma find_proof_key_some (l : list Value) (k : string) :
  find_proof_key l = Some k <->
  exists before after,
    l = before ++ VStr k :: after
    /\ String.prefix PROOF_KEY_PREFIX k = true
    /\ forall v, In v before -> proof_key_of v = None.
Proof.
  induction l as [|x l IH]; cbn [find_proof_key]; split.
  - discriminate.
  - intros (b & a & H & _). destruct b; discriminate.
  - destruct (proof_key_of x) eqn:E.
    + intros [= ->]. exists [], l. destruct x; try discriminate. cbn in E.
      destruct (String.prefix PROOF_KEY_PREFIX s) eqn:P; [|discriminate].
      injection E as ->. repeat split; auto. intros v [].
    + intros H. apply IH in H. destruct H as (b & a & -> & P & Hb).
      exists (x :: b), a. repeat split; auto.
      intros v [<- | Hv]; auto.
  - intros (b & a & H & P & Hb). destruct b as [|y b]; cbn in H.
    + injection H as -> ->. cbn. now rewrite P.
    + injection H as -> ->. rewrite (Hb y (or_introl eq_refl)).
      apply IH. exists b, a. repeat split; auto. intros v Hv. apply Hb. now right.
Qed.

Lemma proof_key_of_none (v : Value) :
  proof_key_of v = None <->
  forall s, v = VStr s -> String.prefix PROOF_KEY_PREFIX s = false.
Proof.
  destruct v as [| | |s| |]; cbn [proof_key_of];
    try (split; [intros _ t [=] | reflexivity]).
  split.
  - intros H t [= <-].
    destruct (String.prefix PROOF_KEY_PREFIX s); [discriminate | reflexivity].
  - intros H. now rewrite (H s eq_refl).
Qed.

Lemma getAccountDetail_run (this : ConsensusCondition) (key : string) (w : World) :
  ConsensusCondition.getAccountDetail this key w
  = (if online w then Returned (details_get (accountId this) key (details w))
     else Thrown "Iroha unavailable",
     add_trace w [GetAccountDetail (accountId this) key]).
Proof.
  unfold ConsensusCondition.getAccountDetail, iroha_getAccountDetail, bind, log, add_trace.
  destruct w as [d [] n dr tr]; reflexivity.
Qed.

Lemma queries_reads (this : AffectedLoader) : filter is_query (reads this) = [].
Proof.
  unfold reads. induction (subjectPropertiesToLoad this) as [|e t IH]; cbn; auto.
Qed.

(** Every run of [test] that was given a principal and found a proof key
    adds to the trace the query for that key, and after it only reads of
    the state. *)
Lemma test_trace (this : ConsensusCondition) (state : MeldReadState)
    (affected : GraphUpdate) (proof : option Value) (principal : Subject)
    (k : string) (w : World) :
  find_proof_key (array proof) = Some k ->
  exists rs,
    snd (ConsensusCondition.test this state affected proof (Some principal) w)
    = add_trace w (GetAccountDetail (accountId this) k :: rs)
    /\ filter is_query rs = [].
Proof.
  intros Hk. unfold ConsensusCondition.test. rewrite Hk. unfold bind at 1.
  rewrite getAccountDetail_run.
  destruct (online w); [|stops].
  destruct (details_get _ _ _) as [text|]; [|stops].
  destruct (JSON.parse text) as [proved|]; [|stops].
  unfold bind at 1, lift at 1.
  destruct (member proved "pid") as [pid|e]; [|stops].
  destruct (negb (strict_eq pid (subject_id principal))); [stops|].
  unfold bind at 1. rewrite load_run. rewrite add_trace_app.
  exists (reads (AffectedLoader.new affected)). split; [|apply queries_reads].
  unfold bind, lift, ret.
  destruct (member proved "state"); [|reflexivity].
  destruct (test_subjects _ _) as [[]|]; reflexivity.
Qed.

(** C8 (the proof key).  [test] takes for the proof key the first string
    of the proof value (a single value, or the non-null elements of a
    collection) that starts with [pk_], whatever comes before it that is
    not a string or does not start so, and whatever comes after it: the one
    query that [test] makes of the ledger is for that key.  When the proof
    value has no such string, [test] returns "No proof key in update" and
    leaves the world as it was, so the ledger is not queried. *)
Theorem test_proof_key_extraction (this : ConsensusCondition) (state : MeldReadState)
    (affected : GraphUpdate) (proof : option Value) (principal : Subject) (w : World) :
  (forall before k after,
     array proof = before ++ VStr k :: after ->
     String.prefix PROOF_KEY_PREFIX k = true ->
     (forall v, In v before ->
        forall s, v = VStr s -> String.prefix PROOF_KEY_PREFIX s = false) ->
     filter is_query
       (trace (snd (ConsensusCondition.test this state affected proof
                      (Some principal) w)))
     = filter is_query (trace w) ++ [GetAccountDetail (accountId this) k])
  /\ ((forall v, In v (array proof) ->
         forall s, v = VStr s -> String.prefix PROOF_KEY_PREFIX s = false) ->
      ConsensusCondition.test this state affected proof (Some principal) w
      = (Returned (VStr "No proof key in update"), w)).
Proof.
  split.
  - intros before k after E P Hb.
    assert (Hk : find_proof_key (array proof) = Some k).
    { apply find_proof_key_some. exists before, after. repeat split; auto.
      intros v Hv. apply proof_key_of_none. now apply Hb. }
    destruct (test_trace this state affected proof principal k w Hk) as (rs & -> & Hq).
    cbn [add_trace trace]. rewrite filter_app. cbn [filter is_query]. now rewrite Hq.
  - intros H. unfold ConsensusCondition.test.
    replace (find_proof_key (array proof)) with (@None string); [reflexivity|].
    symmetry. apply find_proof_key_none. intros v Hv.
    apply proof_key_of_none. now apply H.
Qed.

(* ================================================================== *)
(** * The footprint of an update *)

(** ** Objects *)

Lemma mem_string_In (k : string) (l : list string) : mem_string k l = true <-> In k l.
Proof.
  unfold mem_string. rewrite existsb_exists. split.
  - intros (x & Hx & E). apply String.eqb_eq in E. now subst.
  - intros H. exists k. split; [assumption | apply String.eqb_refl].
Qed.

Lemma mem_string_false (k : string) (l : list string) :
  mem_string k l = false <-> ~ In k l.
Proof.
  rewrite <- mem_string_In. destruct (mem_string k l); split; intuition congruence.
Qed.

Lemma nodup_keys_NoDup (l : list string) : nodup_keys l = true <-> NoDup l.
Proof.
  induction l as [|k l IH]; cbn [nodup_keys].
  - split; [constructor | reflexivity].
  - rewrite andb_true_iff, negb_true_iff, mem_string_false, IH. split.
    + intros [H1 H2]. now constructor.
    + intros H. inversion H. now split.
Qed.

Lemma obj_get_In (k : string) (v : Value) (o : Obj) :
  obj_get k o = Some v -> In (k, v) o.
Proof.
  induction o as [|[k' v'] o IH]; cbn [obj_get]; [discriminate|].
  destruct (String.eqb_spec k' k) as [-> | _].
  - intros [= ->]. now left.
  - intros H. right. now apply IH.
Qed.

Lemma obj_get_key (k : string) (o : Obj) :
  obj_get k o <> None <-> In k (map fst o).
Proof.
  induction o as [|[k' v'] o IH]; cbn [obj_get map fst].
  - split; [congruence | intros []].
  - destruct (String.eqb_spec k' k) as [-> | N].
    + split; [now left | discriminate].
    + rewrite IH. split; [now right | intros [E | H]; [contradiction | assumption]].
Qed.

Lemma obj_get_None (k : string) (o : Obj) :
  obj_get k o = None <-> ~ In k (map fst o).
Proof.
  rewrite <- obj_get_key. destruct (obj_get k o); split; intuition congruence.
Qed.

Lemma In_obj_get (k : string) (v : Value) (o : Obj) :
  NoDup (map fst o) -> In (k, v) o -> obj_get k o = Some v.
Proof.
  induction o as [|[k' v'] o IH]; cbn [map fst obj_get]; intros Hn Hin; [destruct Hin|].
  inversion Hn as [|? ? Hk Hn']; subst.
  destruct Hin as [[= -> ->] | Hin].
  - now rewrite String.eqb_refl.
  - destruct (String.eqb_spec k' k) as [-> | _]; [|now apply IH].
    exfalso. apply Hk. apply (in_map fst) in Hin. exact Hin.
Qed.

Lemma obj_get_set (k p : string) (v : Value) (o : Obj) :
  obj_get k (obj_set p v o) = if String.eqb p k then Some v else obj_get k o.
Proof.
  induction o as [|[k' v'] o IH]; cbn [obj_set obj_get].
  - reflexivity.
  - destruct (String.eqb_spec k' p) as [-> | N]; cbn [obj_get].
    + destruct (String.eqb_spec p k); reflexivity.
    + rewrite IH. destruct (String.eqb_spec k' k) as [-> | N'].
      * destruct (String.eqb_spec p k); [congruence | reflexivity].
      * reflexivity.
Qed.

Lemma obj_get_remove (k p : string) (o : Obj) :
  obj_get k (obj_remove p o) = if String.eqb p k then None else obj_get k o.
Proof.
  unfold obj_remove. induction o as [|[k' v'] o IH]; cbn [filter obj_get fst].
  - now destruct (String.eqb p k).
  - destruct (String.eqb_spec k' p) as [-> | N]; cbn [negb obj_get].
    + rewrite IH. destruct (String.eqb_spec p k); reflexivity.
    + rewrite IH. destruct (String.eqb_spec k' k) as [-> | N'].
      * destruct (String.eqb_spec p k); [congruence | reflexivity].
      * reflexivity.
Qed.

Lemma obj_get_assign (k p : string) (v : option Value) (o : Obj) :
  obj_get k (obj_assign p v o) = if String.eqb p k then v else obj_get k o.
Proof. destruct v; cbn [obj_assign]; [apply obj_get_set | apply obj_get_remove]. Qed.

Lemma keys_obj_set (p : string) (v : Value) (o : Obj) :
  map fst (obj_set p v o)
  = if mem_string p (map fst o) then map fst o else map fst o ++ [p].
Proof.
  induction o as [|[k' v'] o IH]; cbn [obj_set map fst mem_string existsb]; [reflexivity|].
  rewrite (String.eqb_sym p k').
  destruct (String.eqb_spec k' p) as [-> | N]; cbn [map fst orb]; [reflexivity|].
  rewrite IH. fold (mem_string p (map fst o)).
  now destruct (mem_string p (map fst o)).
Qed.

Lemma NoDup_obj_set (p : string) (v : Value) (o : Obj) :
  NoDup (map fst o) -> NoDup (map fst (obj_set p v o)).
Proof.
  intros H. rewrite keys_obj_set. destruct (mem_string p (map fst o)) eqn:E; [assumption|].
  apply mem_string_false in E.
  apply NoDup_app; [assumption | repeat constructor; intros [] | ].
  intros x Hx [<- | []]. contradiction.
Qed.

Lemma NoDup_obj_remove (p : string) (o : Obj) :
  NoDup (map fst o) -> NoDup (map fst (obj_remove p o)).
Proof.
  unfold obj_remove. induction o as [|[k' v'] o IH]; cbn [filter map fst]; intros H.
  - constructor.
  - inversion H as [|? ? Hk Hn]; subst.
    destruct (negb (k' =? p)); cbn [map fst]; [|now apply IH].
    constructor; [|now apply IH].
    intros Hin. apply Hk. apply in_map_iff in Hin. destruct Hin as ([a b] & <- & Hin).
    apply filter_In in Hin. destruct Hin as [Hin _].
    apply (in_map fst) in Hin. exact Hin.
Qed.

Lemma In_obj_set (kv : string * Value) (p : string) (v : Value) (o : Obj) :
  In kv (obj_set p v o) -> kv = (p, v) \/ In kv o.
Proof.
  induction o as [|[k' v'] o IH]; cbn [obj_set].
  - intros [<- | []]. now left.
  - destruct (String.eqb_spec k' p) as [-> | N].
    + intros [<- | H]; [now left | right; now right].
    + intros [<- | H]; [right; now left|].
      destruct (IH H); [now left | right; now right].
Qed.

(** ** The table of the properties to load *)

Lemma table_get_set (id id' : string) (ps : list string) (t : table) :
  table_get id' (table_set id ps t)
  = if String.eqb id id' then Some ps else table_get id' t.
Proof.
  induction t as [|[k qs] t IH]; cbn [table_set table_get].
  - reflexivity.
  - destruct (String.eqb_spec k id) as [-> | N]; cbn [table_get].
    + destruct (String.eqb_spec id id'); reflexivity.
    + rewrite IH. destruct (String.eqb_spec k id') as [-> | N'].
      * destruct (String.eqb_spec id id'); [congruence | reflexivity].
      * reflexivity.
Qed.

Lemma table_get_key (id : string) (t : table) :
  table_get id t <> None <-> In id (map fst t).
Proof.
  induction t as [|[k qs] t IH]; cbn [table_get map fst].
  - split; [congruence | intros []].
  - destruct (String.eqb_spec k id) as [-> | N].
    + split; [now left | discriminate].
    + rewrite IH. split; [now right | intros [E | H]; [contradiction | assumption]].
Qed.

Lemma In_table_get (id : string) (ps : list string) (t : table) :
  NoDup (map fst t) -> In (id, ps) t -> table_get id t = Some ps.
Proof.
  induction t as [|[k qs] t IH]; cbn [map fst table_get]; intros Hn Hin; [destruct Hin|].
  inversion Hn as [|? ? Hk Hn']; subst.
  destruct Hin as [[= -> ->] | Hin].
  - now rewrite String.eqb_refl.
  - destruct (String.eqb_spec k id) as [-> | _]; [|now apply IH].
    exfalso. apply Hk. apply (in_map fst) in Hin. exact Hin.
Qed.

Lemma keys_table_set (id : string) (ps : list string) (t : table) :
  map fst (table_set id ps t)
  = if mem_string id (map fst t) then map fst t else map fst t ++ [id].
Proof.
  induction t as [|[k qs] t IH]; cbn [table_set map fst mem_string existsb]; [reflexivity|].
  rewrite (String.eqb_sym id k).
  destruct (String.eqb_spec k id) as [-> | N]; cbn [map fst orb]; [reflexivity|].
  rewrite IH. fold (mem_string id (map fst t)).
  now destruct (mem_string id (map fst t)).
Qed.

Lemma Set_add_In (x y : string) (s : list string) :
  In y (Set_add x s) <-> y = x \/ In y s.
Proof.
  unfold Set_add. destruct (mem_string x s) eqn:E.
  - apply mem_string_In in E. split; [now right | intros [-> | H]; assumption].
  - rewrite in_app_iff. cbn. intuition.
Qed.


Lemma add_keys_cons (subject : Subject) (id k : string) (ks : list string) (t : table) :
  add_keys subject id (k :: ks) t
  = add_keys subject id ks
      (if isPropertyObject k (obj_get k subject)
       then match table_get id t with
            | Some ps => table_set id (Set_add k ps) t
            | None => t
            end
       else t).
Proof. reflexivity. Qed.

Lemma add_keys_spec (subject : Subject) (id : string) (ks : list string) (t : table) :
  listed t id ->
  map fst (add_keys subject id ks t) = map fst t
  /\ forall id' p,
       to_load (add_keys subject id ks t) id' p <->
       to_load t id' p
       \/ (id' = id /\ In p ks /\ isPropertyObject p (obj_get p subject) = true).
Proof.
  revert t. induction ks as [|k ks IH]; intros t Hid.
  - split; [reflexivity|]. intros id' p. cbn. intuition.
  - rewrite add_keys_cons.
    destruct (isPropertyObject k (obj_get k subject)) eqn:Ek.
    + destruct (table_get id t) as [ps|] eqn:Et.
      2:{ apply table_get_key in Hid. contradiction. }
      assert (Hk : map fst (table_set id (Set_add k ps) t) = map fst t).
      { rewrite keys_table_set. apply mem_string_In in Hid. now rewrite Hid. }
      assert (Hid' : listed (table_set id (Set_add k ps) t) id).
      { unfold listed. now rewrite Hk. }
      destruct (IH _ Hid') as (IHk & IHp). split; [congruence|].
      intros id' p. rewrite IHp. unfold to_load. rewrite table_get_set.
      destruct (String.eqb_spec id id') as [<- | N].
      * split.
        -- intros [(qs & [= <-] & Hp) | (_ & Hp & E)].
           ++ apply Set_add_In in Hp. destruct Hp as [-> | Hp].
              ** right. repeat split; auto. now left.
              ** left. now exists ps.
           ++ right. repeat split; auto. now right.
        -- intros [(qs & Hq & Hp) | (_ & [<- | Hp] & E)].
           ++ left. exists (Set_add k ps). split; auto. apply Set_add_In. right.
              congruence.
           ++ left. exists (Set_add k ps). split; auto. apply Set_add_In. now left.
           ++ right. repeat split; auto.
      * split.
        -- intros [H | (E & _)]; [now left | congruence].
        -- intros [H | (E & _)]; [now left | congruence].
    + destruct (IH _ Hid) as (IHk & IHp). split; [assumption|].
      intros id' p. rewrite IHp. split.
      * intros [H | (E & Hp & Hq)]; [now left | right; repeat split; auto; now right].
      * intros [H | (E & [<- | Hp] & Hq)]; [now left | congruence | right; repeat split; auto].
Qed.

Lemma isPropertyObject_key (p : string) (s : Subject) :
  isPropertyObject p (obj_get p s) = true -> In p (Object_keys s).
Proof.
  unfold isPropertyObject. intros H. apply obj_get_key.
  destruct (obj_get p s); [discriminate|].
  cbn in H. now rewrite andb_false_r in H.
Qed.

Lemma addProperties_subject_unfold (t : table) (subject : Subject) :
  AffectedLoader.addProperties_subject t subject
  = add_keys subject (to_key (subject_id subject)) (Object_keys subject)
      (match table_get (to_key (subject_id subject)) t with
       | Some _ => t
       | None => table_set (to_key (subject_id subject)) [] t
       end).
Proof. reflexivity. Qed.

Lemma addProperties_subject_spec (t : table) (subject : Subject) :
  let id := to_key (subject_id subject) in
  let t' := AffectedLoader.addProperties_subject t subject in
  (forall id', listed t' id' <-> listed t id' \/ id' = id)
  /\ (NoDup (map fst t) -> NoDup (map fst t'))
  /\ (forall id' p, to_load t' id' p <->
                    to_load t id' p
                    \/ (id' = id /\ isPropertyObject p (obj_get p subject) = true)).
Proof.
  intros id t'. subst t'. rewrite addProperties_subject_unfold. fold id.
  set (t1 := match table_get id t with Some _ => t | None => table_set id [] t end).
  assert (H1 : listed t1 id).
  { subst t1. destruct (table_get id t) eqn:E.
    - apply table_get_key. congruence.
    - unfold listed. rewrite keys_table_set.
      destruct (mem_string id (map fst t)) eqn:M; [now apply mem_string_In|].
      apply in_app_iff. right. now left. }
  assert (Hk1 : forall id', listed t1 id' <-> listed t id' \/ id' = id).
  { intros id'. subst t1. destruct (table_get id t) eqn:E.
    - split; [now left | intros [H | ->]; [assumption|]].
      apply table_get_key. congruence.
    - unfold listed. rewrite keys_table_set.
      destruct (mem_string id (map fst t)) eqn:M.
      + apply mem_string_In in M. split; [now left | intros [H | ->]; assumption].
      + rewrite in_app_iff. cbn. intuition. }
  assert (Hn1 : NoDup (map fst t) -> NoDup (map fst t1)).
  { intros Hn. subst t1. destruct (table_get id t) eqn:E; [assumption|].
    rewrite keys_table_set. destruct (mem_string id (map fst t)) eqn:M; [assumption|].
    apply mem_string_false in M.
    apply NoDup_app; [assumption | repeat constructor; intros [] |].
    intros y Hy [<- | []]. contradiction. }
  assert (Hp1 : forall id' p, to_load t1 id' p <-> to_load t id' p).
  { intros id' p. subst t1. destruct (table_get id t) eqn:E; [reflexivity|].
    unfold to_load. rewrite table_get_set.
    destruct (String.eqb_spec id id') as [<- | N]; [|reflexivity].
    split.
    - intros (ps & [= <-] & []).
    - intros (ps & Hps & _). congruence. }
  destruct (add_keys_spec subject id (Object_keys subject) t1 H1) as (Hk & Hp).
  repeat split.
  - unfold listed. rewrite Hk. apply Hk1.
  - unfold listed. rewrite Hk. apply Hk1.
  - rewrite Hk. exact Hn1.
  - rewrite Hp, Hp1. intros [H | (E & _ & Hq)]; [now left | now right].
  - rewrite Hp, Hp1. intros [H | (E & Hq)]; [now left|].
    right. repeat split; auto. now apply isPropertyObject_key.
Qed.

Lemma fold_addProperties_spec (subjects : list Subject) (t : table) :
  let t' := fold_left AffectedLoader.addProperties_subject subjects t in
  (forall id, listed t' id <-> listed t id \/ entity_of subjects id)
  /\ (NoDup (map fst t) -> NoDup (map fst t'))
  /\ (forall id p, to_load t' id p <-> to_load t id p \/ mentions subjects id p).
Proof.
  revert t. induction subjects as [|s subjects IH]; intros t; cbn [fold_left].
  - repeat split; auto.
    + intros [H | (s & [] & _)]. assumption.
    + intros [H | (s & [] & _)]. assumption.
  - destruct (IH (AffectedLoader.addProperties_subject t s)) as (Hl & Hn & Hp).
    destruct (addProperties_subject_spec t s) as (Hl1 & Hn1 & Hp1).
    repeat split.
    + intros H. apply Hl in H. destruct H as [H | (x & Hx & E)].
      * apply Hl1 in H. destruct H as [H | ->]; [now left|].
        right. exists s. split; [now left | reflexivity].
      * right. exists x. split; [now right | assumption].
    + intros [H | (x & [<- | Hx] & E)]; apply Hl.
      * left. apply Hl1. now left.
      * left. apply Hl1. now right.
      * right. now exists x.
    + auto.
    + intros H. apply Hp in H. destruct H as [H | (x & Hx & E & Q)].
      * apply Hp1 in H. destruct H as [H | (-> & Q)]; [now left|].
        right. exists s. repeat split; auto. now left.
      * right. exists x. repeat split; auto. now right.
    + intros [H | (x & [<- | Hx] & E & Q)]; apply Hp.
      * left. apply Hp1. now left.
      * left. apply Hp1. right. now split.
      * right. now exists x.
Qed.

Lemma entity_of_app (a b : list Subject) (id : string) :
  entity_of (a ++ b) id <-> entity_of a id \/ entity_of b id.
Proof.
  unfold entity_of. split.
  - intros (s & H & E). apply in_app_iff in H. destruct H; [left | right]; now exists s.
  - intros [(s & H & E) | (s & H & E)]; exists s; split; auto; apply in_app_iff; auto.
Qed.

Lemma mentions_app (a b : list Subject) (id p : string) :
  mentions (a ++ b) id p <-> mentions a id p \/ mentions b id p.
Proof.
  unfold mentions. split.
  - intros (s & H & E). apply in_app_iff in H. destruct H; [left | right]; now exists s.
  - intros [(s & H & E) | (s & H & E)]; exists s; split; auto; apply in_app_iff; auto.
Qed.

(** The table that the constructor builds holds the entities of the update
    once each, and for each the properties that the update mentions. *)
Lemma loader_table_spec (u : GraphUpdate) :
  let t := subjectPropertiesToLoad (AffectedLoader.new u) in
  affected (AffectedLoader.new u) = u
  /\ NoDup (map fst t)
  /\ (forall id, In id (map fst t) <-> entity_of (subjects_of u) id)
  /\ (forall id ps, In (id, ps) t ->
        forall p, In p ps <-> mentions (subjects_of u) id p).
Proof.
  cbn zeta. unfold AffectedLoader.new, AffectedLoader.addProperties.
  cbn [affected subjectPropertiesToLoad].
  set (t1 := fold_left AffectedLoader.addProperties_subject (at_delete u) []).
  destruct (fold_addProperties_spec (at_delete u) []) as (Hl1 & Hn1 & Hp1).
  destruct (fold_addProperties_spec (at_insert u) t1) as (Hl2 & Hn2 & Hp2).
  fold t1 in Hl1, Hn1, Hp1.
  set (t2 := fold_left AffectedLoader.addProperties_subject (at_insert u) t1).
  fold t2 in Hl2, Hn2, Hp2.
  assert (Hn : NoDup (map fst t2)).
  { apply Hn2, Hn1. constructor. }
  repeat split.
  - exact Hn.
  - intros H. apply Hl2 in H. unfold subjects_of. apply entity_of_app.
    destruct H as [H | H]; [|now right].
    apply Hl1 in H. destruct H as [[] | H]. now left.
  - intros H. unfold subjects_of in H. apply entity_of_app in H. apply Hl2.
    destruct H as [H | H]; [|now right]. left. apply Hl1. now right.
  - intros Hp.
    assert (T : to_load t2 id p).
    { exists ps. split; [now apply In_table_get | assumption]. }
    apply Hp2 in T. unfold subjects_of. apply mentions_app.
    destruct T as [T | T]; [|now right].
    apply Hp1 in T. destruct T as [(qs & [=] & _) | T]. now left.
  - intros M. unfold subjects_of in M. apply mentions_app in M.
    assert (T : to_load t2 id p).
    { apply Hp2. destruct M as [M | M]; [|now right]. left. apply Hp1. now right. }
    destruct T as (qs & Hq & Hin). rewrite (In_table_get _ _ _ Hn H) in Hq.
    now injection Hq as ->.
Qed.

(** ** Sets of strings *)





(** ** Identities *)


Lemma strict_eq_str_refl (x : string) :
  strict_eq (Some (VStr x)) (Some (VStr x)) = true.
Proof. cbn. apply String.eqb_refl. Qed.

Lemma graph_get_spec (g : list Subject) (id : option Value) (i : Subject) :
  graph_get g id = Some i -> In i g /\ strict_eq (subject_id i) id = true.
Proof. unfold graph_get. intros H. now apply find_some in H. Qed.

(** ** The values of a property under an update *)


Lemma fold_add_value_In (l acc : list Value) (x : Value) :
  In x (fold_left add_value l acc) -> In x acc \/ In x l.
Proof.
  revert acc. induction l as [|a l IH]; intros acc; cbn [fold_left]; [auto|].
  intros H. apply IH in H. destruct H as [H | H]; [|right; now right].
  unfold add_value in H. destruct (existsb (Value_eqb a) acc); [now left|].
  apply in_app_iff in H. destruct H as [H | [<- | []]]; [now left | right; now left].
Qed.

Lemma updateValues_unfold (old deletes inserts : option Value) :
  updateValues old deletes inserts
  = let values :=
      fold_left add_value (array inserts)
        (filter (fun v => negb (existsb (Value_eqb v) (array deletes))) (array old)) in
    match values with
    | [] => None
    | [v] => Some v
    | _ => Some (VArr values)
    end.
Proof. reflexivity. Qed.





(** ** One step of [updateSubject] *)

Lemma update_step_guard (d i : option Subject) (s : Subject) (p : string) :
  String.eqb p "@id" || String.eqb p "@context" = true -> update_step d i s p = s.
Proof. unfold update_step. now intros ->. Qed.

Lemma update_step_id (d i : option Subject) (s : Subject) (p : string) :
  subject_id (update_step d i s p) = subject_id s.
Proof.
  unfold update_step, subject_id.
  destruct (String.eqb_spec p "@id") as [-> | N]; cbn [orb]; [reflexivity|].
  destruct (String.eqb p "@context"); [reflexivity|].
  rewrite obj_get_assign. destruct (String.eqb_spec p "@id"); [contradiction | reflexivity].
Qed.

Lemma fold_update_id (d i : option Subject) (ks : list string) (s : Subject) :
  subject_id (fold_left (update_step d i) ks s) = subject_id s.
Proof.
  revert s. induction ks as [|k ks IH]; intros s; cbn [fold_left]; [reflexivity|].
  now rewrite IH, update_step_id.
Qed.

Lemma updateSubject_id (s : Subject) (u : GraphUpdate) :
  subject_id (updateSubject s u) = subject_id s.
Proof. unfold updateSubject. apply fold_update_id. Qed.









(** ** The state *)

Lemma state_lookup_spec (state : MeldReadState) (id : string) (props : list string)
    (s : Subject) :
  state_lookup state id props = Some s ->
  subject_id s = Some (VStr id)
  /\ forall k, In k (Object_keys s) -> k = "@id" \/ In k props.
Proof.
  unfold state_lookup. destruct (find _ state) as [x|]; [|discriminate].
  intros [= <-]. split; [reflexivity|].
  intros k [<- | H]; [now left|]. right.
  apply in_map_iff in H. destruct H as ([a b] & <- & H).
  apply filter_In in H. destruct H as [_ H]. apply andb_true_iff in H.
  destruct H as [_ H]. now apply mem_string_In.
Qed.

Lemma base_subject_spec (state : MeldReadState) (id : string) (props : list string) :
  subject_id (base_subject state id props) = Some (VStr id)
  /\ forall k, In k (Object_keys (base_subject state id props)) ->
               k = "@id" \/ In k props.
Proof.
  unfold base_subject. destruct (state_lookup state id props) as [s|] eqn:E.
  - now apply state_lookup_spec in E.
  - split; [reflexivity|]. intros k [<- | []]. now left.
Qed.


(** ** The snapshot *)

Lemma final_state_In (this : AffectedLoader) (state : MeldReadState) (s : Subject) :
  In s (final_state this state) <->
  exists id props,
    In (id, props) (subjectPropertiesToLoad this)
    /\ s = updateSubject (base_subject state id props) (affected this).
Proof.
  unfold final_state. rewrite in_map_iff. split.
  - intros ([id props] & <- & H). now exists id, props.
  - intros (id & props & H & ->). now exists (id, props).
Qed.



(** An entity that loses all that the state has of it is still in the
    snapshot, as its bare identity. *)
Lemma deleted_entity_is_emitted :
  fst (AffectedLoader.load (AffectedLoader.new delete_fred)
         [[("@id", VStr "fred"); ("name", VStr "Fred")]] example_world)
  = Returned [[("@id", VStr "fred")]].
Proof. reflexivity. Qed.




(* ================================================================== *)
(** * [test] *)

(** ** The comparison *)

Lemma find_matching_spec (s : Subject) (p : string) (v : Value) (ps : list Value) :
  forallb is_object ps = true ->
  exists b, find_matching ps s p v = Returned b /\ (b = true <-> contained ps s p v).
Proof.
  induction ps as [|x ps IH]; cbn [forallb find_matching]; intros H.
  - exists false. split; [reflexivity|]. split; [discriminate|].
    intros (o & [] & _).
  - apply andb_true_iff in H. destruct H as [Hx Hps].
    destruct x as [| | | | |o]; try discriminate. cbn [matches].
    destruct (IH Hps) as (b & Hb & Hiff).
    destruct (strict_eq (obj_get "@id" o) (subject_id s) && includesValue o p v) eqn:E.
    + exists true. split; [reflexivity|]. split; [|reflexivity]. intros _.
      apply andb_true_iff in E. exists o. split; [now left | exact E].
    + exists b. split; [assumption|]. rewrite Hiff. split.
      * intros (o' & Hin & H). exists o'. split; [now right | assumption].
      * intros (o' & [[= <-] | Hin] & H1 & H2).
        -- unfold subject_id in *. rewrite H1, H2 in E. discriminate.
        -- exists o'. now split.
Qed.

Lemma test_entries_spec (s : Subject) (ps : list Value) (entries : Obj) :
  forallb is_object ps = true ->
  exists b,
    test_entries (Some (VArr ps)) s entries = Returned b
    /\ (b = true <->
        forall p v, In (p, v) entries -> isPropertyObject p (Some v) = true ->
                    contained ps s p v).
Proof.
  intros Hps. induction entries as [|[p v] entries IH]; cbn [test_entries].
  - exists true. split; [reflexivity|]. split; [intros _ p v [] | reflexivity].
  - destruct IH as (b & Hb & Hiff).
    destruct (isPropertyObject p (Some v)) eqn:E.
    + cbn [proved_state_find].
      destruct (find_matching_spec s p v ps Hps) as (m & -> & Hm).
      destruct m.
      * exists b. split; [assumption|]. rewrite Hiff. split.
        -- intros H q x [[= -> ->] | Hin] Hq; [now apply Hm | now apply H].
        -- intros H q x Hin Hq. apply H; [now right | assumption].
      * exists false. split; [reflexivity|]. split; [discriminate|].
        intros H. apply Hm. apply H; [now left | assumption].
    + exists b. split; [assumption|]. rewrite Hiff. split.
      * intros H q x [[= -> ->] | Hin] Hq; [congruence | now apply H].
      * intros H q x Hin Hq. apply H; [now right | assumption].
Qed.

Lemma test_subjects_spec (ps : list Value) (actual : list Subject) :
  forallb is_object ps = true ->
  exists b,
    test_subjects (Some (VArr ps)) actual = Returned b
    /\ (b = true <-> corroborated ps actual).
Proof.
  intros Hps. induction actual as [|s actual IH]; cbn [test_subjects].
  - exists true. split; [reflexivity|]. split; [intros _ s [] | reflexivity].
  - destruct IH as (b & Hb & Hiff).
    destruct (test_entries_spec s ps s Hps) as (m & -> & Hm).
    destruct m.
    + exists b. split; [assumption|]. rewrite Hiff. unfold corroborated. split.
      * intros H x [<- | Hin]; [now apply Hm | now apply H].
      * intros H x Hin. apply H. now right.
    + exists false. split; [reflexivity|]. split; [discriminate|].
      intros H. apply Hm. apply H. now left.
Qed.

(** A state without a property is passed whatever was proved. *)
Lemma test_entries_vacuous (provedState : option Value) (s : Subject) (entries : Obj) :
  (forall p v, In (p, v) entries -> isPropertyObject p (Some v) = false) ->
  test_entries provedState s entries = Returned true.
Proof.
  induction entries as [|[p v] entries IH]; intros H; cbn [test_entries]; [reflexivity|].
  rewrite (H p v (or_introl eq_refl)). apply IH. intros q x Hin. apply H. now right.
Qed.

Lemma test_subjects_vacuous (provedState : option Value) (actual : list Subject) :
  (forall s, In s actual ->
   forall p v, In (p, v) s -> isPropertyObject p (Some v) = false) ->
  test_subjects provedState actual = Returned true.
Proof.
  induction actual as [|s actual IH]; intros H; cbn [test_subjects]; [reflexivity|].
  rewrite test_entries_vacuous; [|now apply H; left].
  apply IH. intros x Hin. apply H. now right.
Qed.

Lemma member_total (v : Value) (k k' : string) (x : option Value) :
  member v k = Returned x -> exists y, member v k' = Returned y.
Proof. destruct v; cbn; try discriminate; eauto. Qed.

Lemma includesValue_extends (o o' : Obj) (p : string) (v : Value) :
  (forall k x, obj_get k o = Some x -> obj_get k o' = Some x) ->
  includesValue o p v = true -> includesValue o' p v = true.
Proof.
  intros H. unfold includesValue. rewrite !forallb_forall. intros Hin x Hx.
  specialize (Hin x Hx). destruct (obj_get p o) as [y|] eqn:E.
  - now rewrite (H _ _ E).
  - cbn in Hin. discriminate.
Qed.

Lemma corroborated_covers (ps ps' : list Value) (actual : list Subject) :
  covers ps ps' -> corroborated ps actual -> corroborated ps' actual.
Proof.
  intros Hc H s Hs p v Hin Hp. destruct (H s Hs p v Hin Hp) as (o & Ho & Hid & Hv).
  destruct (Hc o Ho) as (o' & Ho' & Hid' & Hext).
  exists o'. repeat split; [assumption | now rewrite Hid' |].
  now apply (includesValue_extends o).
Qed.

(** ** Once the ledger has answered *)

Section LedgerHoldsProof.

Variable this : ConsensusCondition.
Variable state : MeldReadState.
Variable affected : GraphUpdate.
Variable proof : option Value.
Variable principal : Subject.
Variable w : World.
Variable k text : string.
Variable proved : Value.

Hypothesis proof_has_key : find_proof_key (array proof) = Some k.
Hypothesis ledger_online : online w = true.
Hypothesis ledger_holds : details_get (accountId this) k (details w) = Some text.
Hypothesis text_parses : JSON.parse text = Some proved.

Lemma test_parsed :
  ConsensusCondition.test this state affected proof (Some principal) w
  = (pid <- lift (member proved "pid") ;;
     if negb (strict_eq pid (subject_id principal))
     then ret (VStr "Proof principal does not match update principal")
     else
       actualState <- AffectedLoader.load (AffectedLoader.new affected) state ;;
       provedState <- lift (member proved "state") ;;
       matched <- lift (test_subjects provedState actualState) ;;
       if matched then ret (VBool true)
       else ret (VStr "Proof does not match update"))
      (add_trace w [GetAccountDetail (accountId this) k]).
Proof.
  unfold ConsensusCondition.test. rewrite proof_has_key. unfold bind at 1.
  now rewrite getAccountDetail_run, ledger_online, ledger_holds, text_parses.
Qed.

(** C3 (principal binding).  When the proof value committed to the ledger
    under the proof key has the principal [A] for its [pid], [test] with a
    principal whose identity is another, [B], returns "Proof principal does
    not match update principal"; it has then queried the ledger and done
    nothing else: the state was not read, so the comparison of the states
    was not reached. *)
Theorem test_principal_binding (A B : string) :
  member proved "pid" = Returned (Some (VStr A)) ->
  subject_id principal = Some (VStr B) ->
  A <> B ->
  ConsensusCondition.test this state affected proof (Some principal) w
  = (Returned (VStr "Proof principal does not match update principal"),
     add_trace w [GetAccountDetail (accountId this) k]).
Proof.
  intros Hpid HB HAB. rewrite test_parsed. unfold bind, lift. rewrite Hpid, HB.
  cbn [strict_eq]. apply String.eqb_neq in HAB. now rewrite HAB.
Qed.

Variable pid : option Value.
Hypothesis proved_pid : member proved "pid" = Returned pid.
Hypothesis same_principal : strict_eq pid (subject_id principal) = true.

Lemma test_run (provedState : option Value) :
  member proved "state" = Returned provedState ->
  ConsensusCondition.test this state affected proof (Some principal) w
  = (match test_subjects provedState
             (final_state (AffectedLoader.new affected) state) with
     | Returned true => Returned (VBool true)
     | Returned false => Returned (VStr "Proof does not match update")
     | Thrown e => Thrown e
     end,
     add_trace w (GetAccountDetail (accountId this) k
                    :: reads (AffectedLoader.new affected))).
Proof.
  intros Hst. rewrite test_parsed. unfold bind at 1, lift at 1.
  rewrite proved_pid, same_principal. cbn [negb]. unfold bind at 1.
  rewrite load_run, add_trace_app.
  unfold bind, lift, ret. rewrite Hst. cbn [Datatypes.app].
  destruct (test_subjects _ _) as [[]|]; reflexivity.
Qed.

Variable actual : list Subject.
Hypothesis loaded :
  fst (AffectedLoader.load (AffectedLoader.new affected) state w) = Returned actual.

Lemma loaded_final_state : actual = final_state (AffectedLoader.new affected) state.
Proof. rewrite load_run in loaded. now injection loaded. Qed.


(** C10 (vacuous match).  The comparison of [test] runs over the entries of
    the local subjects that are properties, and ['@id'] is never one; so
    when no subject of the locally built snapshot has a property, [test]
    returns [true] for any proof value of the principal, whatever its state
    is, and also when it has no subject at all. *)
Theorem test_vacuous_match :
  (forall s, In s actual ->
   forall p v, In (p, v) s -> isPropertyObject p (Some v) = false) ->
  (forall v, isPropertyObject "@id" v = false)
  /\ fst (ConsensusCondition.test this state affected proof (Some principal) w)
     = Returned (VBool true).
Proof.
  intros Hno. split; [reflexivity|].
  destruct (member_total proved "pid" "state" pid proved_pid) as (st & Hst).
  rewrite (test_run _ Hst). cbn [fst]. rewrite <- loaded_final_state.
  now rewrite test_subjects_vacuous.
Qed.

End LedgerHoldsProof.

(* ================================================================== *)
(** * [prove], and [test] after it *)

(** ** The ledger *)

Lemma details_get_set (a k v : string) (d : list (string * string * string)) :
  details_get a k (details_set a k v d) = Some v.
Proof.
  induction d as [|[[a' k'] v'] d IH]; cbn [details_set details_get].
  - now rewrite !String.eqb_refl.
  - destruct (String.eqb a' a && String.eqb k' k) eqn:E; cbn [details_get]; now rewrite E.
Qed.

Lemma setAccountDetail_run (this : ConsensusCondition) (key value : string)
    (w : World) :
  ConsensusCondition.setAccountDetail this key value w
  = let wire := slice_1_neg1 (JSON.stringify (VStr value)) in
    let sent := trace w ++ [SetAccountDetail (accountId this) key wire] in
    if negb (online w) then
      (Thrown "Iroha unavailable",
       mkWorld (details w) (online w) (noise w) (drawn w) sent)
    else if negb (valid_detail_key key) then
      (Thrown "Iroha rejected the key",
       mkWorld (details w) (online w) (noise w) (drawn w) sent)
    else
      (Returned tt,
       mkWorld (details_set (accountId this) key value (details w))
               (online w) (noise w) (drawn w) sent).
Proof.
  unfold ConsensusCondition.setAccountDetail, iroha_setAccountDetail, bind, log.
  cbn [online details noise drawn trace]. cbn zeta.
  destruct (online w); cbn [negb]; [|reflexivity].
  destruct (valid_detail_key key); cbn [negb]; [|reflexivity].
  now rewrite iroha_unescape_quote.
Qed.

(** C6 (encoding round trip).  For every proof value, written by
    [setAccountDetail] as [prove] does (serialised, serialised again as a
    string and stripped of the outer quotes) to a ledger that is available,
    under a key that it accepts, the text that [getAccountDetail] then
    reads under the key, one level of escaping having been lost, is parsed
    by [JSON.parse] into the proof value itself. *)
Theorem commitment_round_trip (this : ConsensusCondition) (key : string)
    (commitment : Value) (w : World) :
  wf_value commitment = true ->
  online w = true ->
  valid_detail_key key = true ->
  exists w1 w2 text,
    ConsensusCondition.setAccountDetail this key (JSON.stringify commitment) w
    = (Returned tt, w1)
    /\ ConsensusCondition.getAccountDetail this key w1 = (Returned (Some text), w2)
    /\ text = JSON.stringify commitment
    /\ JSON.parse text = Some commitment.
Proof.
  intros Hwf Hon Hkey. rewrite setAccountDetail_run. cbn zeta. rewrite Hon, Hkey.
  cbn [negb]. eexists. eexists. exists (JSON.stringify commitment).
  split; [reflexivity|]. rewrite getAccountDetail_run. cbn [online details].
  rewrite details_get_set. split; [reflexivity|]. split; [reflexivity|].
  now apply parse_stringify.
Qed.

(** ** Equality of values *)

Lemma Value_eqb_refl (v : Value) : Value_eqb v v = true.
Proof.
  induction v as [|b|z|s|l IH|o IH] using Value_ind; cbn [Value_eqb].
  - reflexivity.
  - apply Bool.eqb_reflx.
  - apply Z.eqb_refl.
  - apply String.eqb_refl.
  - induction IH as [|x l Hx Hl IHl]; [reflexivity|]. now rewrite Hx, IHl.
  - induction IH as [|[k x] o Hx Ho IHo]; [reflexivity|].
    cbn [snd] in Hx. now rewrite String.eqb_refl, Hx, IHo.
Qed.

Lemma includesValue_self (s : Subject) (p : string) (v : Value) :
  obj_get p s = Some v -> includesValue s p v = true.
Proof.
  intros H. unfold includesValue. rewrite H. apply forallb_forall. intros x Hx.
  apply existsb_exists. exists x. split; [assumption | apply Value_eqb_refl].
Qed.

(** A state is corroborated by itself. *)
Lemma corroborated_self (actual : list Subject) :
  (forall s, In s actual ->
     NoDup (map fst s) /\ exists id, subject_id s = Some (VStr id)) ->
  corroborated (map VObj actual) actual.
Proof.
  intros H s Hs p v Hin Hp. destruct (H s Hs) as (Hn & id & Hid).
  exists s. repeat split.
  - now apply in_map.
  - rewrite Hid. apply strict_eq_str_refl.
  - apply includesValue_self. now apply In_obj_get.
Qed.

(** ** Well-formed values *)

Lemma wf_obj_spec (o : Obj) :
  wf_obj o = true <->
  NoDup (map fst o) /\ forall k v, In (k, v) o -> wf_value v = true.
Proof.
  unfold wf_obj. cbn [wf_value].
  rewrite andb_true_iff, nodup_keys_NoDup, forallb_forall. split.
  - intros [Hn H]. split; [assumption|]. intros k v Hin. now apply (H (k, v)).
  - intros [Hn H]. split; [assumption|]. intros [k v] Hin. now apply (H k v).
Qed.

Lemma wf_array (v : option Value) :
  (forall x, v = Some x -> wf_value x = true) ->
  forall x, In x (array v) -> wf_value x = true.
Proof.
  intros H x Hx. destruct v as [y|]; [|destruct Hx].
  specialize (H y eq_refl).
  destruct y; cbn [array] in Hx;
    try (destruct Hx as [<- | []]; assumption); [destruct Hx|].
  apply filter_In in Hx. destruct Hx as [Hx _]. cbn [wf_value] in H.
  rewrite forallb_forall in H. now apply H.
Qed.

Lemma wf_fold_add_value (l acc : list Value) :
  (forall x, In x acc -> wf_value x = true) ->
  (forall x, In x l -> wf_value x = true) ->
  forall x, In x (fold_left add_value l acc) -> wf_value x = true.
Proof.
  intros Ha Hl x Hx. apply fold_add_value_In in Hx. destruct Hx; auto.
Qed.

Lemma wf_updateValues (old deletes inserts : option Value) (x : Value) :
  (forall y, old = Some y -> wf_value y = true) ->
  (forall y, inserts = Some y -> wf_value y = true) ->
  updateValues old deletes inserts = Some x -> wf_value x = true.
Proof.
  intros Ho Hi. rewrite updateValues_unfold. cbn zeta.
  set (kept := filter _ (array old)).
  assert (Hall : forall y, In y (fold_left add_value (array inserts) kept) ->
                           wf_value y = true).
  { apply wf_fold_add_value; [|now apply wf_array].
    intros y Hy. subst kept. apply filter_In in Hy. destruct Hy as [Hy _].
    now apply (wf_array old). }
  destruct (fold_left add_value (array inserts) kept) as [|a [|b l]] eqn:E.
  - discriminate.
  - intros [= <-]. apply Hall. now left.
  - intros [= <-]. cbn [wf_value]. apply forallb_forall. exact Hall.
Qed.

Lemma wf_obj_set (p : string) (x : Value) (o : Obj) :
  wf_obj o = true -> wf_value x = true -> wf_obj (obj_set p x o) = true.
Proof.
  rewrite !wf_obj_spec. intros [Hn H] Hx. split; [now apply NoDup_obj_set|].
  intros k v Hin. apply In_obj_set in Hin. destruct Hin as [[= -> ->] | Hin]; eauto.
Qed.

Lemma wf_obj_remove (p : string) (o : Obj) :
  wf_obj o = true -> wf_obj (obj_remove p o) = true.
Proof.
  rewrite !wf_obj_spec. intros [Hn H]. split; [now apply NoDup_obj_remove|].
  intros k v Hin. unfold obj_remove in Hin. apply filter_In in Hin.
  destruct Hin as [Hin _]. eauto.
Qed.

Lemma wf_obj_get (p : string) (o : Obj) (v : Value) :
  wf_obj o = true -> obj_get p o = Some v -> wf_value v = true.
Proof.
  rewrite wf_obj_spec. intros [_ H] Hg. apply obj_get_In in Hg. eauto.
Qed.

Lemma wf_update_step (d i : option Subject) (s : Subject) (p : string) :
  wf_obj s = true -> (forall x, i = Some x -> wf_obj x = true) ->
  wf_obj (update_step d i s p) = true.
Proof.
  intros Hs Hi. unfold update_step.
  destruct (String.eqb p "@id" || String.eqb p "@context"); [assumption|].
  destruct (updateValues _ _ _) as [x|] eqn:E; cbn [obj_assign].
  - apply wf_obj_set; [assumption|]. revert E. apply wf_updateValues.
    + intros y. now apply wf_obj_get.
    + intros y. destruct i as [io|]; cbn [optional_get]; [|discriminate].
      apply wf_obj_get. now apply Hi.
  - now apply wf_obj_remove.
Qed.

Lemma wf_fold_update (d i : option Subject) (ks : list string) (s : Subject) :
  wf_obj s = true -> (forall x, i = Some x -> wf_obj x = true) ->
  wf_obj (fold_left (update_step d i) ks s) = true.
Proof.
  revert s. induction ks as [|k ks IH]; intros s Hs Hi; cbn [fold_left]; [assumption|].
  apply IH; [|assumption]. now apply wf_update_step.
Qed.

Lemma wf_updateSubject (s : Subject) (u : GraphUpdate) :
  wf_obj s = true -> wf_update u = true -> wf_obj (updateSubject s u) = true.
Proof.
  intros Hs Hu. unfold updateSubject. apply wf_fold_update; [assumption|].
  intros x Hx. apply graph_get_spec in Hx. destruct Hx as [Hx _].
  unfold wf_update, wf_subjects in Hu. apply andb_true_iff in Hu.
  destruct Hu as [_ Hu]. rewrite forallb_forall in Hu. now apply Hu.
Qed.

Lemma NoDup_filter_keys (f : string * Value -> bool) (o : Obj) :
  NoDup (map fst o) -> NoDup (map fst (filter f o)).
Proof.
  induction o as [|[k v] o IH]; cbn [filter map fst]; intros H; [constructor|].
  inversion H as [|? ? Hk Hn]; subst.
  destruct (f (k, v)); cbn [map fst]; [|now apply IH].
  constructor; [|now apply IH].
  intros Hin. apply Hk. apply in_map_iff in Hin. destruct Hin as ([a b] & <- & Hin).
  apply filter_In in Hin. destruct Hin as [Hin _].
  apply (in_map fst) in Hin. exact Hin.
Qed.

Lemma wf_base_subject (state : MeldReadState) (id : string) (props : list string) :
  wf_subjects state = true -> wf_obj (base_subject state id props) = true.
Proof.
  intros Hst. unfold base_subject, state_lookup.
  destruct (find _ state) as [s|] eqn:E; [|reflexivity].
  apply find_some in E. destruct E as [Hin _].
  unfold wf_subjects in Hst. rewrite forallb_forall in Hst.
  specialize (Hst s Hin). apply wf_obj_spec in Hst. destruct Hst as [Hn Hv].
  apply wf_obj_spec. split.
  - cbn [map fst]. constructor; [|now apply NoDup_filter_keys].
    intros H. apply in_map_iff in H. destruct H as ([a b] & <- & H).
    apply filter_In in H. destruct H as [_ H]. cbn [fst] in H.
    apply andb_true_iff in H. destruct H as [H _].
    now rewrite String.eqb_refl in H.
  - intros k v [[= <- <-] | H]; [reflexivity|].
    apply filter_In in H. destruct H as [H _]. eauto.
Qed.

Lemma wf_final_state (u : GraphUpdate) (state : MeldReadState) (s : Subject) :
  wf_subjects state = true -> wf_update u = true ->
  In s (final_state (AffectedLoader.new u) state) ->
  wf_obj s = true /\ exists id, subject_id s = Some (VStr id).
Proof.
  intros Hst Hu Hs. apply final_state_In in Hs. destruct Hs as (id & props & _ & ->).
  destruct (loader_table_spec u) as (-> & _). split.
  - apply wf_updateSubject; [now apply wf_base_subject | assumption].
  - exists id. rewrite updateSubject_id. apply base_subject_spec.
Qed.

(** A commitment with the subjects of the local snapshot, each with at
    least its properties, passes the test. *)
Lemma superset_commitment_passes (this : ConsensusCondition) (state : MeldReadState)
    (affected : GraphUpdate) (proof : option Value) (principal : Subject)
    (w : World) (k text : string) (proved : Value) (pid : option Value)
    (ps : list Value) :
  find_proof_key (array proof) = Some k ->
  online w = true ->
  details_get (accountId this) k (details w) = Some text ->
  JSON.parse text = Some proved ->
  member proved "pid" = Returned pid ->
  strict_eq pid (subject_id principal) = true ->
  member proved "state" = Returned (Some (VArr ps)) ->
  forallb is_object ps = true ->
  wf_subjects state = true ->
  wf_update affected = true ->
  covers (map VObj (final_state (AffectedLoader.new affected) state)) ps ->
  fst (ConsensusCondition.test this state affected proof (Some principal) w)
  = Returned (VBool true).
Proof.
  intros Hk Hon Hd Hp Hpid Heq Hst Hobj Hws Hwu Hc.
  rewrite (test_run _ _ _ _ _ _ _ _ _ Hk Hon Hd Hp _ Hpid Heq _ Hst). cbn [fst].
  destruct (test_subjects_spec ps (final_state (AffectedLoader.new affected) state) Hobj)
    as (b & -> & Hb).
  replace b with true; [reflexivity|]. symmetry. apply Hb.
  apply (corroborated_covers _ _ _ Hc), corroborated_self.
  intros s Hs. destruct (wf_final_state affected state s Hws Hwu Hs) as (H1 & H2).
  split; [|assumption]. now apply wf_obj_spec in H1.
Qed.

Lemma wf_ProofValue (pid : option Value) (actual : list Subject) :
  is_primitive pid = true ->
  (forall s, In s actual -> wf_obj s = true) ->
  wf_value (ProofValue pid actual) = true.
Proof.
  intros Hp H.
  assert (Hs : forallb wf_value (map VObj actual) = true).
  { apply forallb_forall. intros x Hx. apply in_map_iff in Hx.
    destruct Hx as (s & <- & Hs). now apply H. }
  unfold ProofValue.
  destruct pid as [p|];
    cbn [Datatypes.app wf_value map fst snd forallb nodup_keys mem_string existsb].
  - rewrite Hs. destruct p; try discriminate; reflexivity.
  - now rewrite Hs.
Qed.

Lemma member_ProofValue_pid (pid : option Value) (actual : list Subject) :
  member (ProofValue pid actual) "pid" = Returned pid.
Proof. destruct pid; reflexivity. Qed.

Lemma member_ProofValue_state (pid : option Value) (actual : list Subject) :
  member (ProofValue pid actual) "state" = Returned (Some (VArr (map VObj actual))).
Proof. destruct pid; reflexivity. Qed.

Lemma strict_eq_primitive (v : option Value) :
  is_primitive v = true -> strict_eq v v = true.
Proof.
  destruct v as [[]|]; cbn; try discriminate; intros _; auto.
  - apply Bool.eqb_reflx.
  - apply Z.eqb_refl.
  - apply String.eqb_refl.
Qed.

(** ** [prove] *)

Lemma prove_run (this : ConsensusCondition) (state : MeldReadState)
    (affected : GraphUpdate) (principal : Subject) (w : World) :
  let key :=
    (PROOF_KEY_PREFIX ++ toString_hex (map (noise w) (seq (drawn w) 16)))%string in
  let value :=
    JSON.stringify (ProofValue (subject_id principal)
                      (final_state (AffectedLoader.new affected) state)) in
  let wire := slice_1_neg1 (JSON.stringify (VStr value)) in
  let sent :=
    trace w ++ reads (AffectedLoader.new affected)
      ++ [RandomBytes 16; SetAccountDetail (accountId this) key wire] in
  ConsensusCondition.prove this state affected (Some principal) w
  = if negb (online w) then
      (Thrown "Iroha unavailable",
       mkWorld (details w) (online w) (noise w) (drawn w + 16) sent)
    else if negb (valid_detail_key key) then
      (Thrown "Iroha rejected the key",
       mkWorld (details w) (online w) (noise w) (drawn w + 16) sent)
    else
      (Returned (VStr key),
       mkWorld (details_set (accountId this) key value (details w))
               (online w) (noise w) (drawn w + 16) sent).
Proof.
  lazy zeta. unfold ConsensusCondition.prove. unfold bind at 1. rewrite load_run.
  unfold bind at 1, crypto.randomBytes at 1. cbn [add_trace noise drawn details online trace].
  unfold bind at 1. rewrite setAccountDetail_run. lazy zeta.
  cbn [noise drawn details online trace]. rewrite <- !List.app_assoc.
  cbn [Datatypes.app].
  destruct (online w); cbn [negb]; [|reflexivity].
  destruct (valid_detail_key _); cbn [negb]; reflexivity.
Qed.

Lemma prefix_append (a b : string) : String.prefix a (a ++ b) = true.
Proof.
  induction a as [|c a IH]; cbn.
  - now destruct b.
  - destruct (Ascii.ascii_dec c c); [assumption | contradiction].
Qed.

(** C1 (round trip).  When [prove] has returned a proof key for an update,
    a state and a principal, and the ledger, in a world where it is
    available, holds under that key what [prove] stored there, [test] with
    the same update, state and principal and that key for a proof returns
    [true].  The state and the update hold objects without a repeated key,
    and the identity of the principal is not an object. *)
Theorem prove_then_test (this : ConsensusCondition) (state : MeldReadState)
    (affected : GraphUpdate) (principal : Subject) (w w1 w2 : World) (k : string) :
  wf_subjects state = true ->
  wf_update affected = true ->
  is_primitive (subject_id principal) = true ->
  ConsensusCondition.prove this state affected (Some principal) w
  = (Returned (VStr k), w1) ->
  online w2 = true ->
  details_get (accountId this) k (details w2)
  = details_get (accountId this) k (details w1) ->
  fst (ConsensusCondition.test this state affected (Some (VStr k)) (Some principal) w2)
  = Returned (VBool true).
Proof.
  intros Hst Hu Hpid Hprove Hon Hsame.
  rewrite prove_run in Hprove. lazy zeta in Hprove.
  remember (PROOF_KEY_PREFIX ++ toString_hex (map (noise w) (seq (drawn w) 16)))%string
    as key eqn:Ekey.
  destruct (online w); cbn [negb] in Hprove; [|discriminate].
  destruct (valid_detail_key key); cbn [negb] in Hprove; [|discriminate].
  injection Hprove as Hk Hw1. subst w1 k. cbn [details] in Hsame.
  rewrite details_get_set in Hsame.
  set (actual := final_state (AffectedLoader.new affected) state) in *.
  assert (Hwf : forall s, In s actual ->
                  wf_obj s = true /\ exists id, subject_id s = Some (VStr id)).
  { intros s Hs. now apply (wf_final_state affected state). }
  assert (Hkey : find_proof_key (array (Some (VStr key))) = Some key).
  { cbn [array find_proof_key proof_key_of]. rewrite Ekey.
    now rewrite prefix_append. }
  assert (Hparse : JSON.parse (JSON.stringify (ProofValue (subject_id principal) actual))
                   = Some (ProofValue (subject_id principal) actual)).
  { apply parse_stringify, wf_ProofValue; [assumption|].
    intros s Hs. now apply Hwf. }
  rewrite (test_run _ _ _ _ _ _ _ _ _ Hkey Hon Hsame Hparse _
             (member_ProofValue_pid _ _) (strict_eq_primitive _ Hpid) _
             (member_ProofValue_state _ _)).
  cbn [fst]. fold actual.
  assert (Hobj : forallb is_object (map VObj actual) = true).
  { apply forallb_forall. intros x Hx. apply in_map_iff in Hx.
    now destruct Hx as (s & <- & _). }
  destruct (test_subjects_spec (map VObj actual) actual Hobj) as (b & -> & Hb).
  replace b with true; [reflexivity|]. symmetry. apply Hb.
  apply corroborated_self. intros s Hs. destruct (Hwf s Hs) as (H1 & H2).
  split; [|assumption]. now apply wf_obj_spec in H1.
Qed.

(* ================================================================== *)
(** * What [prove] returns, and the scenarios of the specification *)

(** ** The proof key that [prove] makes *)

Lemma hex_digit_key_char (n : nat) : is_key_char (hex_digit n) = true.
Proof. do 16 (destruct n as [|n]; [reflexivity|]). reflexivity. Qed.

Lemma all_chars_append (p : ascii -> bool) (a b : string) :
  all_chars p (a ++ b) = all_chars p a && all_chars p b.
Proof.
  induction a as [|c a IH]; cbn [String.append all_chars]; [reflexivity|].
  now rewrite IH, andb_assoc.
Qed.

Lemma toString_hex_chars (bytes : list ascii) :
  all_chars is_key_char (toString_hex bytes) = true.
Proof.
  induction bytes as [|c bytes IH]; [reflexivity|].
  cbn [toString_hex]. rewrite all_chars_append, IH. unfold hex_byte.
  cbn [all_chars]. now rewrite !hex_digit_key_char.
Qed.

Lemma toString_hex_length (bytes : list ascii) :
  String.length (toString_hex bytes) = 2 * List.length bytes.
Proof.
  induction bytes as [|c bytes IH]; [reflexivity|].
  cbn [toString_hex]. rewrite length_append, IH. cbn. lia.
Qed.

Lemma proof_key_valid (bytes : list ascii) :
  List.length bytes = 16 ->
  valid_detail_key (PROOF_KEY_PREFIX ++ toString_hex bytes) = true.
Proof.
  intros H. unfold valid_detail_key.
  rewrite all_chars_append, toString_hex_chars, length_append, toString_hex_length, H.
  reflexivity.
Qed.

(** With the ledger available, [prove] returns a key of the form of a proof
    key, under which the ledger then holds the serialised proof value. *)
Lemma prove_returns (this : ConsensusCondition) (state : MeldReadState)
    (affected : GraphUpdate) (principal : Subject) (w : World) :
  online w = true ->
  exists k w1,
    ConsensusCondition.prove this state affected (Some principal) w
    = (Returned (VStr k), w1)
    /\ String.prefix PROOF_KEY_PREFIX k = true
    /\ valid_detail_key k = true
    /\ details_get (accountId this) k (details w1)
       = Some (JSON.stringify
                 (ProofValue (subject_id principal)
                    (final_state (AffectedLoader.new affected) state))).
Proof.
  intros Hon. rewrite prove_run. lazy zeta.
  assert (Hv : valid_detail_key
                 (PROOF_KEY_PREFIX ++ toString_hex (map (noise w) (seq (drawn w) 16)))
               = true).
  { apply proof_key_valid. now rewrite length_map, length_seq. }
  rewrite Hon, Hv. cbn [negb]. eexists. eexists. split; [reflexivity|].
  split; [apply prefix_append|]. split; [exact Hv|].
  cbn [details]. apply details_get_set.
Qed.

(** ** Scenarios *)

(** The expectation of the repository's test "consensus condition adds
    proof to blockchain". *)
Lemma suite_adds_proof_to_blockchain :
  match fst (ConsensusCondition.getAccountDetail example_condition proved_key
               proved_world) with
  | Returned (Some text) => JSON.parse text
  | _ => None
  end
  = Some (VObj [("pid", VStr "https://alice.example/profile#me");
                ("state", VArr [VObj [("@id", VStr "fred"); ("name", VStr "Fred")]])]).
Proof. vm_compute. reflexivity. Qed.

(** A key that was never written: "No proof in ledger", and no exception. *)
Lemma unknown_key_is_not_yet_visible :
  fst (ConsensusCondition.test example_condition [] insert_fred (Some (VStr "pk_2"))
         (Some alice) proved_world)
  = Returned (VStr "No proof in ledger").
Proof. by_computation. Qed.

(** A local update with a fact that was not proved does not pass. *)
Lemma tampered_update_does_not_match :
  fst (ConsensusCondition.test example_condition []
         (mkGraphUpdate []
            [[("@id", VStr "fred"); ("name", VStr "Fred"); ("role", VStr "admin")]])
         (Some (VStr proved_key)) (Some alice) proved_world)
  = Returned (VStr "Proof does not match update").
Proof. by_computation. Qed.

(** Two replicas with different states build the same snapshot for the
    invoice of the repository's test. *)
Lemma replicas_agree_on_invoice :
  let invoice :=
    mkGraphUpdate [] [[("@id", VStr "my-invoice"); ("invoice-state", VStr "ALICE")]] in
  fst (AffectedLoader.load (AffectedLoader.new invoice) [] example_world)
  = fst (AffectedLoader.load (AffectedLoader.new invoice)
           [[("@id", VStr "my-invoice"); ("total", VNum 12)];
            [("@id", VStr "fred"); ("name", VStr "Fred")]]
           proved_world).
Proof. reflexivity. Qed.

(* ================================================================== *)
(** * Instances *)

(** Alice proves [insert_fred]; the test of her proof passes. *)
Lemma prove_then_test_witness :
  fst (ConsensusCondition.test example_condition [] insert_fred
         (Some (VStr proved_key)) (Some alice) proved_world)
  = Returned (VBool true).
Proof.
  apply (prove_then_test example_condition [] insert_fred alice
           example_world proved_world proved_world proved_key);
    by_computation.
Defined.


(** The commitment of Alice does not pass for Bob. *)
Lemma test_principal_binding_witness :
  ConsensusCondition.test example_condition [] insert_fred mixed_proof (Some bob)
    (world_with wide_commitment)
  = (Returned (VStr "Proof principal does not match update principal"),
     add_trace (world_with wide_commitment)
       [GetAccountDetail (accountId example_condition) "pk_1"]).
Proof.
  apply (test_principal_binding example_condition [] insert_fred mixed_proof bob
           (world_with wide_commitment) "pk_1" (JSON.stringify wide_commitment)
           wide_commitment)
    with (A := "https://alice.example/profile#me")
         (B := "https://bob.example/profile#me");
    try by_computation.
  discriminate.
Defined.

(** A commitment is read back from the ledger as it was. *)
Lemma commitment_round_trip_witness :
  exists w1 w2 text,
    ConsensusCondition.setAccountDetail example_condition "pk_1"
      (JSON.stringify wide_commitment) example_world
    = (Returned tt, w1)
    /\ ConsensusCondition.getAccountDetail example_condition "pk_1" w1
       = (Returned (Some text), w2)
    /\ text = JSON.stringify wide_commitment
    /\ JSON.parse text = Some wide_commitment.
Proof.
  apply (commitment_round_trip example_condition "pk_1" wide_commitment example_world);
    by_computation.
Defined.

(** The deletion of the name of [fred], on a state without [fred], passes
    the test against a commitment with no subject. *)
Lemma test_vacuous_match_witness :
  fst (ConsensusCondition.test example_condition [] delete_fred mixed_proof (Some alice)
         (world_with empty_commitment))
  = Returned (VBool true).
Proof.
  apply (test_vacuous_match example_condition [] delete_fred mixed_proof alice
           (world_with empty_commitment) "pk_1" (JSON.stringify empty_commitment)
           empty_commitment)
    with (pid := subject_id alice) (actual := [[("@id", VStr "fred")]]);
    try by_computation.
  intros s [<- | []] p v [[= <- <-] | []]. reflexivity.
Defined.

(** Of a number, an unrelated string and two keys, the first key is
    queried. *)
Lemma test_proof_key_extraction_witness :
  filter is_query
    (trace (snd (ConsensusCondition.test example_condition [] insert_fred
                   mixed_proof (Some alice) (world_with wide_commitment))))
  = [GetAccountDetail (accountId example_condition) "pk_1"].
Proof.
  apply (proj1 (test_proof_key_extraction example_condition [] insert_fred mixed_proof
                  alice (world_with wide_commitment))
           [VNum 7; VStr "unrelated-value"] "pk_1" [VStr "pk_2"]).
  - reflexivity.
  - reflexivity.
  - intros v [<- | [<- | []]] s E; [discriminate E|]. now injection E as <-.
Defined.



(* ================================================================== *)
(** * More about [prove] *)

(** ** The proof key *)






(** ** What [prove] leaves in the ledger *)



Lemma details_get_set_other (a k v a' k' : string)
    (d : list (string * string * string)) :
  (a', k') <> (a, k) ->
  details_get a' k' (details_set a k v d) = details_get a' k' d.
Proof.
  intros N.
  assert (E : String.eqb a a' && String.eqb k k' = false).
  { apply andb_false_iff.
    destruct (String.eqb_spec a a') as [-> |]; [|now left].
    destruct (String.eqb_spec k k') as [-> |]; [|now right].
    now contradiction N. }
  induction d as [|[[b j] x] d IH]; cbn [details_set details_get].
  - now rewrite E.
  - destruct (String.eqb b a && String.eqb j k) eqn:M; cbn [details_get].
    + apply andb_true_iff in M. destruct M as [M1 M2].
      apply String.eqb_eq in M1, M2. subst b j. now rewrite E.
    + now rewrite IH.
Qed.

(** X3 (one record, and nothing else).  When [prove] has returned a key,
    it has read the state as [load] does, drawn 16 random bytes, and then
    sent one command to Iroha, for the account of the condition and that
    key; it has made no query.  Every other detail of the ledger, of this
    account under another key or of another account, is what it was. *)
Theorem prove_writes_one_record (this : ConsensusCondition) (state : MeldReadState)
    (affected : GraphUpdate) (principal : Subject) (w w1 : World) (k : string) :
  ConsensusCondition.prove this state affected (Some principal) w
  = (Returned (VStr k), w1) ->
  (exists wire,
     trace w1
     = trace w ++ reads (AffectedLoader.new affected)
         ++ [RandomBytes 16; SetAccountDetail (accountId this) k wire])
  /\ filter is_query (trace w1) = filter is_query (trace w)
  /\ drawn w1 = drawn w + 16
  /\ forall account key,
       (account, key) <> (accountId this, k) ->
       details_get account key (details w1) = details_get account key (details w).
Proof.
  rewrite prove_run. lazy zeta.
  destruct (online w); cbn [negb]; [|discriminate].
  destruct (valid_detail_key _); cbn [negb]; [|discriminate].
  intros [= <- <-]. cbn [trace drawn details]. split; [eexists; reflexivity|].
  split; [|split; [reflexivity|]].
  - rewrite !filter_app, queries_reads. cbn [filter is_query].
    now rewrite List.app_nil_r.
  - intros account key N. now apply details_get_set_other.
Qed.

Lemma prove_writes_one_record_witness :
  (exists wire,
     trace proved_world
     = trace example_world ++ reads (AffectedLoader.new insert_fred)
         ++ [RandomBytes 16;
             SetAccountDetail (accountId example_condition) proved_key wire])
  /\ filter is_query (trace proved_world) = filter is_query (trace example_world)
  /\ drawn proved_world = drawn example_world + 16
  /\ forall account key,
       (account, key) <> (accountId example_condition, proved_key) ->
       details_get account key (details proved_world)
       = details_get account key (details example_world).
Proof.
  apply (prove_writes_one_record example_condition [] insert_fred alice).
  reflexivity.
Defined.

(** ** Two proofs *)

Lemma unhex_hex_digit (n : nat) : n < 16 -> unhex (hex_digit n) = Some n.
Proof.
  intros H. do 16 (destruct n as [|n]; [reflexivity|]). lia.
Qed.

Lemma hex_digit_inj (m n : nat) :
  m < 16 -> n < 16 -> hex_digit m = hex_digit n -> m = n.
Proof.
  intros Hm Hn H. apply (f_equal unhex) in H.
  rewrite !unhex_hex_digit in H by assumption. now injection H.
Qed.

Lemma hex_byte_inj (c d : ascii) : hex_byte c = hex_byte d -> c = d.
Proof.
  unfold hex_byte.
  pose proof (nat_ascii_bounded c) as Bc. pose proof (nat_ascii_bounded d) as Bd.
  pose proof (Nat.div_mod_eq (nat_of_ascii c) 16) as Ec.
  pose proof (Nat.div_mod_eq (nat_of_ascii d) 16) as Ed.
  assert (Qc : nat_of_ascii c / 16 < 16) by (apply Nat.Div0.div_lt_upper_bound; lia).
  assert (Qd : nat_of_ascii d / 16 < 16) by (apply Nat.Div0.div_lt_upper_bound; lia).
  assert (Rc : nat_of_ascii c mod 16 < 16) by (apply Nat.mod_upper_bound; lia).
  assert (Rd : nat_of_ascii d mod 16 < 16) by (apply Nat.mod_upper_bound; lia).
  revert Ec Ed Qc Qd Rc Rd.
  generalize (nat_of_ascii c / 16) (nat_of_ascii c mod 16)
             (nat_of_ascii d / 16) (nat_of_ascii d mod 16).
  intros qc rc qd rd Ec Ed Qc Qd Rc Rd [= H1 H2].
  apply hex_digit_inj in H1, H2; try assumption. subst qd rd.
  rewrite <- (ascii_nat_embedding c), <- (ascii_nat_embedding d).
  f_equal. lia.
Qed.

Lemma hex_byte_append (c d : ascii) (r r' : string) :
  (hex_byte c ++ r = hex_byte d ++ r')%string -> hex_byte c = hex_byte d /\ r = r'.
Proof.
  unfold hex_byte.
  generalize (hex_digit (nat_of_ascii c / 16)) (hex_digit (nat_of_ascii c mod 16))
             (hex_digit (nat_of_ascii d / 16)) (hex_digit (nat_of_ascii d mod 16)).
  intros a b a' b'. cbn [String.append]. intros [= -> -> ->]. now split.
Qed.

Lemma toString_hex_inj (l m : list ascii) :
  toString_hex l = toString_hex m -> l = m.
Proof.
  revert m. induction l as [|c l IH]; intros [|d m]; cbn [toString_hex].
  - reflexivity.
  - discriminate.
  - discriminate.
  - intros H. apply hex_byte_append in H. destruct H as [H1 H2].
    f_equal; [now apply hex_byte_inj | now apply IH].
Qed.

(** X4 (two proofs).  Of two calls of [prove] that returned, one after the
    other, the keys are the same exactly when the random source has given
    the same 16 bytes twice; when the keys differ, the commitment of the
    first call is still in the ledger under its key after the second. *)
Theorem successive_proofs_keep_their_commitments (this : ConsensusCondition)
    (state1 state2 : MeldReadState) (affected1 affected2 : GraphUpdate)
    (principal1 principal2 : Subject) (w w1 w2 : World) (k1 k2 : string) :
  ConsensusCondition.prove this state1 affected1 (Some principal1) w
  = (Returned (VStr k1), w1) ->
  ConsensusCondition.prove this state2 affected2 (Some principal2) w1
  = (Returned (VStr k2), w2) ->
  (k1 = k2 <->
   map (noise w) (seq (drawn w) 16) = map (noise w) (seq (drawn w + 16) 16))
  /\ (k1 <> k2 ->
      details_get (accountId this) k1 (details w2)
      = Some (JSON.stringify
                (ProofValue (subject_id principal1)
                   (final_state (AffectedLoader.new affected1) state1)))).
Proof.
  intros H1 H2. rewrite prove_run in H1. lazy zeta in H1.
  remember (map (noise w) (seq (drawn w) 16)) as b1 eqn:E1.
  remember (PROOF_KEY_PREFIX ++ toString_hex b1)%string as key1 eqn:K1.
  destruct (online w); cbn [negb] in H1; [|discriminate].
  destruct (valid_detail_key key1); cbn [negb] in H1; [|discriminate].
  injection H1 as Hk1 Hw1. subst k1 w1.
  rewrite prove_run in H2. lazy zeta in H2. cbn [online noise drawn details] in H2.
  remember (map (noise w) (seq (drawn w + 16) 16)) as b2 eqn:E2.
  remember (PROOF_KEY_PREFIX ++ toString_hex b2)%string as key2 eqn:K2.
  destruct (valid_detail_key key2); cbn [negb] in H2; [|discriminate].
  injection H2 as Hk2 Hw2. subst k2 w2. cbn [details].
  assert (Hiff : key1 = key2 <-> b1 = b2).
  { subst key1 key2. split; [|now intros ->].
    unfold PROOF_KEY_PREFIX. cbn [String.append]. intros [= H].
    now apply toString_hex_inj. }
  split; [exact Hiff|].
  intros N. rewrite details_get_set_other; [apply details_get_set|].
  intros [= H]. apply N. now symmetry.
Qed.

Lemma successive_proofs_keep_their_commitments_witness :
  let second :=
    ConsensusCondition.prove example_condition [] delete_fred (Some bob) proved_world in
  match fst second with
  | Returned (VStr k2) =>
      proved_key <> k2
      /\ details_get (accountId example_condition) proved_key (details (snd second))
         = Some (JSON.stringify
                   (ProofValue (subject_id alice)
                      (final_state (AffectedLoader.new insert_fred) [])))
  | _ => False
  end.
Proof.
  cbv zeta.
  destruct (ConsensusCondition.prove example_condition [] delete_fred (Some bob)
              proved_world) as [[[| | |k2| |]|e] w2] eqn:E;
    try (vm_compute in E; discriminate E).
  cbn [fst snd].
  pose proof (successive_proofs_keep_their_commitments example_condition [] []
                insert_fred delete_fred alice bob example_world proved_world w2
                proved_key k2 eq_refl E) as [Hiff Hkeep].
  assert (N : proved_key <> k2).
  { intros H. apply Hiff in H. vm_compute in H. discriminate H. }
  split; [exact N | exact (Hkeep N)].
Defined.

(** ** Iroha out of reach *)

(** X5 (no verdict without the ledger).  With Iroha out of reach, [prove]
    for a principal is rejected and returns no key, and the ledger is left
    as it was; [test] for a principal and a proof with a proof key is
    rejected too, without a verdict, and has not read the state. *)
Theorem ledger_failure_is_not_a_verdict (this : ConsensusCondition)
    (state : MeldReadState) (affected : GraphUpdate) (proof : option Value)
    (principal : Subject) (k : string) (w : World) :
  online w = false ->
  find_proof_key (array proof) = Some k ->
  (exists e w1,
     ConsensusCondition.prove this state affected (Some principal) w = (Thrown e, w1)
     /\ details w1 = details w)
  /\ (exists e w1,
        ConsensusCondition.test this state affected proof (Some principal) w
        = (Thrown e, w1)
        /\ details w1 = details w
        /\ filter is_state_read (trace w1) = filter is_state_read (trace w)).
Proof.
  intros Hoff Hk. split.
  - rewrite prove_run. lazy zeta. rewrite Hoff. cbn [negb].
    eexists. eexists. split; reflexivity.
  - unfold ConsensusCondition.test. rewrite Hk. unfold bind at 1.
    rewrite getAccountDetail_run, Hoff. eexists. eexists. split; [reflexivity|].
    cbn [add_trace details trace]. split; [reflexivity|].
    rewrite filter_app. cbn [filter is_state_read]. now rewrite List.app_nil_r.
Qed.

Lemma ledger_failure_is_not_a_verdict_witness :
  (exists e w1,
     ConsensusCondition.prove example_condition [] insert_fred (Some alice) offline_world
     = (Thrown e, w1)
     /\ details w1 = details offline_world)
  /\ (exists e w1,
        ConsensusCondition.test example_condition [] insert_fred mixed_proof
          (Some alice) offline_world
        = (Thrown e, w1)
        /\ details w1 = details offline_world
        /\ filter is_state_read (trace w1) = filter is_state_read (trace offline_world)).
Proof.
  apply (ledger_failure_is_not_a_verdict example_condition [] insert_fred mixed_proof
           alice "pk_1" offline_world);
    reflexivity.
Defined.

(* ================================================================== *)
(** * More about [test] *)

(** ** The reasons *)

(** X6 (each reason has one cause).  For every call of [test]: it returns
    "No principal in update" exactly when there is no principal; "No proof
    key in update" exactly when there is a principal and the proof value
    has no proof key; and "No proof in ledger" exactly when there is a
    principal, the proof value has a proof key, Iroha is in reach and the
    account of the condition has no detail under that key. *)
Theorem test_reason_identifies_cause (this : ConsensusCondition)
    (state : MeldReadState) (affected : GraphUpdate) (proof : option Value)
    (principalRef : option Subject) (w : World) :
  let result :=
    fst (ConsensusCondition.test this state affected proof principalRef w) in
  (result = Returned (VStr "No principal in update") <-> principalRef = None)
  /\ (result = Returned (VStr "No proof key in update")
      <-> principalRef <> None /\ find_proof_key (array proof) = None)
  /\ (result = Returned (VStr "No proof in ledger")
      <-> principalRef <> None
          /\ exists k,
               find_proof_key (array proof) = Some k
               /\ online w = true
               /\ details_get (accountId this) k (details w) = None).
Proof.
  intros result.
  assert (E : result
              = fst (ConsensusCondition.test this state affected proof principalRef w))
    by reflexivity.
  clearbody result. unfold ConsensusCondition.test in E.
  destruct principalRef as [principal|]; [|subst result; settle_reason].
  destruct (find_proof_key (array proof)) as [k|] eqn:Hk; [|subst result; settle_reason].
  unfold bind at 1 in E. rewrite getAccountDetail_run in E.
  destruct (online w) eqn:Hon; [|subst result; settle_reason].
  destruct (details_get (accountId this) k (details w)) as [text|] eqn:Hd.
  - destruct (JSON.parse text) as [proved|]; [|subst result; settle_reason].
    unfold bind at 1, lift at 1 in E.
    destruct (member proved "pid") as [pid|e]; [|subst result; settle_reason].
    destruct (negb (strict_eq pid (subject_id principal)));
      [subst result; settle_reason|].
    unfold bind at 1 in E. rewrite load_run in E. unfold bind, lift, ret in E.
    destruct (member proved "state"); [|subst result; settle_reason].
    destruct (test_subjects _ _) as [[]|]; subst result; settle_reason.
  - subst result. settle_reason. exists k. now repeat split.
Qed.

(** X7 (what [test] returns).  A call of [test] that returns, returns
    [true] or one of its five reasons, a string; it never returns
    [false]. *)
Theorem test_returns_true_or_reason (this : ConsensusCondition)
    (state : MeldReadState) (affected : GraphUpdate) (proof : option Value)
    (principalRef : option Subject) (w w' : World) (v : Value) :
  ConsensusCondition.test this state affected proof principalRef w = (Returned v, w') ->
  v = VBool true \/ exists reason, In reason reasons /\ v = VStr reason.
Proof.
  unfold ConsensusCondition.test, reasons.
  destruct principalRef as [principal|];
    [|intros [= <- _]; right; eexists; split; [|reflexivity]; cbn; tauto].
  destruct (find_proof_key (array proof)) as [k|];
    [|intros [= <- _]; right; eexists; split; [|reflexivity]; cbn; tauto].
  unfold bind at 1. rewrite getAccountDetail_run.
  destruct (online w); [|discriminate].
  destruct (details_get _ _ _) as [text|];
    [|intros [= <- _]; right; eexists; split; [|reflexivity]; cbn; tauto].
  destruct (JSON.parse text) as [proved|]; [|discriminate].
  unfold bind at 1, lift at 1.
  destruct (member proved "pid") as [pid|e]; [|discriminate].
  destruct (negb (strict_eq pid (subject_id principal)));
    [intros [= <- _]; right; eexists; split; [|reflexivity]; cbn; tauto|].
  unfold bind at 1. rewrite load_run. unfold bind, lift, ret.
  destruct (member proved "state"); [|discriminate].
  destruct (test_subjects _ _) as [[]|]; [| |discriminate].
  - intros [= <- _]. now left.
  - intros [= <- _]. right. eexists. split; [|reflexivity]. cbn. tauto.
Qed.

Lemma test_returns_true_or_reason_witness :
  VStr "No proof in ledger" = VBool true
  \/ exists reason, In reason reasons /\ VStr "No proof in ledger" = VStr reason.
Proof.
  apply (test_returns_true_or_reason example_condition [] insert_fred
           (Some (VStr "pk_2")) (Some alice) proved_world
           (add_trace proved_world
              [GetAccountDetail (accountId example_condition) "pk_2"])).
  by_computation.
Defined.

(** ** [test] changes nothing *)

Lemma reads_are_reads (this : AffectedLoader) : forallb is_read (reads this) = true.
Proof.
  unfold reads. induction (subjectPropertiesToLoad this) as [|e t IH]; cbn; auto.
Qed.

(** X8 ([test] only reads).  Whatever it is given and whatever comes of
    it, a verdict or an exception, [test] leaves the details of the ledger
    as they were and draws no random byte; what it adds to the
    interactions are queries of the ledger and reads of the state, never a
    command. *)
Theorem test_only_reads (this : ConsensusCondition) (state : MeldReadState)
    (affected : GraphUpdate) (proof : option Value)
    (principalRef : option Subject) (w : World) :
  let w' := snd (ConsensusCondition.test this state affected proof principalRef w) in
  details w' = details w
  /\ drawn w' = drawn w
  /\ exists es, trace w' = trace w ++ es /\ forallb is_read es = true.
Proof.
  cbv zeta.
  assert (H : exists es,
             snd (ConsensusCondition.test this state affected proof principalRef w)
             = add_trace w es /\ forallb is_read es = true).
  { unfold ConsensusCondition.test.
    destruct principalRef as [principal|];
      [|exists []; split; [now rewrite add_trace_nil | reflexivity]].
    destruct (find_proof_key (array proof)) as [k|];
      [|exists []; split; [now rewrite add_trace_nil | reflexivity]].
    unfold bind at 1. rewrite getAccountDetail_run.
    destruct (online w); [|eexists; split; reflexivity].
    destruct (details_get _ _ _) as [text|]; [|eexists; split; reflexivity].
    destruct (JSON.parse text) as [proved|]; [|eexists; split; reflexivity].
    unfold bind at 1, lift at 1.
    destruct (member proved "pid") as [pid|e]; [|eexists; split; reflexivity].
    destruct (negb (strict_eq pid (subject_id principal)));
      [eexists; split; reflexivity|].
    unfold bind at 1. rewrite load_run, add_trace_app.
    exists ([GetAccountDetail (accountId this) k] ++ reads (AffectedLoader.new affected)).
    split; [|cbn [Datatypes.app forallb is_read]; apply reads_are_reads].
    unfold bind, lift, ret.
    destruct (member proved "state"); [|reflexivity].
    destruct (test_subjects _ _) as [[]|]; reflexivity. }
  destruct H as (es & -> & Hes). cbn [add_trace details drawn trace].
  repeat split. now exists es.
Qed.

(** ** A commitment whose state is not a list *)

Lemma test_entries_without_list (st : option Value) (s : Subject) (entries : Obj) :
  is_array st = false ->
  test_entries st s entries
  = if existsb (fun kv => isPropertyObject (fst kv) (Some (snd kv))) entries
    then Thrown "TypeError" else Returned true.
Proof.
  intros Hst.
  induction entries as [|[p v] entries IH]; cbn [test_entries existsb fst snd].
  - reflexivity.
  - destruct (isPropertyObject p (Some v)); cbn [orb]; [|exact IH].
    destruct st as [[]|]; try discriminate; reflexivity.
Qed.

Lemma test_subjects_without_list (st : option Value) (actual : list Subject) :
  is_array st = false ->
  test_subjects st actual
  = if existsb has_property actual then Thrown "TypeError" else Returned true.
Proof.
  intros Hst. induction actual as [|s actual IH]; cbn [test_subjects existsb].
  - reflexivity.
  - rewrite (test_entries_without_list st s s Hst). fold (has_property s).
    destruct (has_property s); cbn [orb]; [reflexivity | exact IH].
Qed.

(** X9 (the state of a commitment has to be a list).  When the proof
    value committed under the proof key is of the principal and its
    [state] is not an array (one subject alone, as in the pattern "prove
    agreement" of the repository's test of the Iroha API, or nothing),
    [test] gives no reason: it is rejected with a [TypeError] as soon as
    the locally built snapshot has a subject with a property, and returns
    [true] when it has none. *)
Theorem test_state_must_be_a_list (this : ConsensusCondition) (state : MeldReadState)
    (affected : GraphUpdate) (proof : option Value) (principal : Subject)
    (w : World) (k text : string) (proved : Value) (pid st : option Value)
    (actual : list Subject) :
  find_proof_key (array proof) = Some k ->
  online w = true ->
  details_get (accountId this) k (details w) = Some text ->
  JSON.parse text = Some proved ->
  member proved "pid" = Returned pid ->
  strict_eq pid (subject_id principal) = true ->
  member proved "state" = Returned st ->
  is_array st = false ->
  fst (AffectedLoader.load (AffectedLoader.new affected) state w) = Returned actual ->
  fst (ConsensusCondition.test this state affected proof (Some principal) w)
  = if existsb has_property actual then Thrown "TypeError" else Returned (VBool true).
Proof.
  intros Hk Hon Hd Hp Hpid Heq Hst Harr Hload.
  rewrite (test_run _ _ _ _ _ _ _ _ _ Hk Hon Hd Hp _ Hpid Heq _ Hst). cbn [fst].
  rewrite load_run in Hload. injection Hload as <-.
  rewrite (test_subjects_without_list st _ Harr).
  now destruct (existsb has_property _).
Qed.

Lemma test_state_must_be_a_list_witness :
  fst (ConsensusCondition.test example_condition [] insert_fred mixed_proof
         (Some alice) (world_with pattern_commitment))
  = Thrown "TypeError".
Proof.
  apply (test_state_must_be_a_list example_condition [] insert_fred mixed_proof alice
           (world_with pattern_commitment) "pk_1" (JSON.stringify pattern_commitment)
           pattern_commitment (subject_id alice)
           (Some (VObj [("@id", VStr "fred"); ("name", VStr "Fred")]))
           [[("@id", VStr "fred"); ("name", VStr "Fred")]]);
    by_computation.
Defined.

(** ** The binding to the principal *)

(** X10 (the binding is a strict equality).  When the ledger holds a proof
    value under the proof key, [test] returns "Proof principal does not
    match update principal" exactly when the [pid] of the proof value is
    not strictly equal to the ['@id'] of the principal: a number is not the
    string of its digits, an object is equal to no parsed [pid], and a
    proof value without [pid] is bound to every principal without
    ['@id']. *)
Theorem test_binding_is_strict (this : ConsensusCondition) (state : MeldReadState)
    (affected : GraphUpdate) (proof : option Value) (principal : Subject)
    (w : World) (k text : string) (proved : Value) (pid : option Value) :
  find_proof_key (array proof) = Some k ->
  online w = true ->
  details_get (accountId this) k (details w) = Some text ->
  JSON.parse text = Some proved ->
  member proved "pid" = Returned pid ->
  (fst (ConsensusCondition.test this state affected proof (Some principal) w)
   = Returned (VStr "Proof principal does not match update principal")
   <-> strict_eq pid (subject_id principal) = false).
Proof.
  intros Hk Hon Hd Hp Hpid.
  rewrite (test_parsed _ _ _ _ _ _ _ _ _ Hk Hon Hd Hp).
  unfold bind at 1, lift at 1. rewrite Hpid.
  destruct (strict_eq pid (subject_id principal)); cbn [negb].
  - unfold bind at 1. rewrite load_run. unfold bind, lift, ret.
    destruct (member proved "state"); [|settle_reason].
    destruct (test_subjects _ _) as [[]|]; settle_reason.
  - settle_reason.
Qed.

Lemma test_binding_is_strict_witness :
  fst (ConsensusCondition.test example_condition [] insert_fred mixed_proof
         (Some [("@id", VNum 7)])
         (world_with (ProofValue (Some (VStr "7")) [])))
  = Returned (VStr "Proof principal does not match update principal")
  <-> strict_eq (Some (VStr "7")) (subject_id [("@id", VNum 7)]) = false.
Proof.
  apply (test_binding_is_strict example_condition [] insert_fred mixed_proof
           [("@id", VNum 7)] (world_with (ProofValue (Some (VStr "7")) []))
           "pk_1" (JSON.stringify (ProofValue (Some (VStr "7")) []))
           (ProofValue (Some (VStr "7")) []));
    by_computation.
Defined.

(** ** A proof on one replica, its test on another *)

(** [test] passes on what [prove] has committed, for a principal of the
    same identity on a replica that builds the same snapshot, as long as
    the ledger holds the commitment. *)
Lemma proved_elsewhere (this : ConsensusCondition) (state1 state2 : MeldReadState)
    (affected : GraphUpdate) (prover tester : Subject) (w w1 w2 : World) (k : string) :
  wf_subjects state1 = true ->
  wf_update affected = true ->
  is_primitive (subject_id prover) = true ->
  subject_id tester = subject_id prover ->
  final_state (AffectedLoader.new affected) state2
  = final_state (AffectedLoader.new affected) state1 ->
  ConsensusCondition.prove this state1 affected (Some prover) w
  = (Returned (VStr k), w1) ->
  online w2 = true ->
  details_get (accountId this) k (details w2)
  = details_get (accountId this) k (details w1) ->
  fst (ConsensusCondition.test this state2 affected (Some (VStr k)) (Some tester) w2)
  = Returned (VBool true).
Proof.
  intros Hst Hu Hpid Hsame Hfinal Hprove Hon Hd.
  rewrite prove_run in Hprove. lazy zeta in Hprove.
  remember (PROOF_KEY_PREFIX ++ toString_hex (map (noise w) (seq (drawn w) 16)))%string
    as key eqn:Ekey.
  destruct (online w); cbn [negb] in Hprove; [|discriminate].
  destruct (valid_detail_key key); cbn [negb] in Hprove; [|discriminate].
  injection Hprove as Hk Hw1. subst w1 k. cbn [details] in Hd.
  rewrite details_get_set in Hd.
  set (actual := final_state (AffectedLoader.new affected) state1) in *.
  assert (Hwf : forall s, In s actual ->
                  wf_obj s = true /\ exists id, subject_id s = Some (VStr id)).
  { intros s Hs. now apply (wf_final_state affected state1). }
  assert (Hkey : find_proof_key (array (Some (VStr key))) = Some key).
  { cbn [array find_proof_key proof_key_of]. rewrite Ekey. now rewrite prefix_append. }
  assert (Hparse : JSON.parse (JSON.stringify (ProofValue (subject_id prover) actual))
                   = Some (ProofValue (subject_id prover) actual)).
  { apply parse_stringify, wf_ProofValue; [assumption|].
    intros s Hs. now apply Hwf. }
  assert (Heq : strict_eq (subject_id prover) (subject_id tester) = true).
  { rewrite Hsame. now apply strict_eq_primitive. }
  rewrite (test_run this state2 affected (Some (VStr key)) tester w2 key _ _
             Hkey Hon Hd Hparse _
             (member_ProofValue_pid _ _) Heq _ (member_ProofValue_state _ _)).
  cbn [fst]. rewrite Hfinal.
  assert (Hobj : forallb is_object (map VObj actual) = true).
  { apply forallb_forall. intros x Hx. apply in_map_iff in Hx.
    now destruct Hx as (s & <- & _). }
  destruct (test_subjects_spec (map VObj actual) actual Hobj) as (b & -> & Hb).
  replace b with true; [reflexivity|]. symmetry. apply Hb.
  apply corroborated_self. intros s Hs. destruct (Hwf s Hs) as (H1 & H2).
  split; [|assumption]. now apply wf_obj_spec in H1.
Qed.

(** X11 (one identity, one principal).  [prove] and [test] know a
    principal by its ['@id'] alone: when [prove] has returned a proof key
    for a principal, [test] of that key returns [true] for every principal
    with the same ['@id'], whatever else the two hold, and also when both
    have no ['@id'] at all.  The state and the update hold objects without
    a repeated key, and the identity is not an object. *)
Theorem principal_is_known_by_identity (this : ConsensusCondition)
    (state : MeldReadState) (affected : GraphUpdate) (prover tester : Subject)
    (w w1 : World) (k : string) :
  wf_subjects state = true ->
  wf_update affected = true ->
  is_primitive (subject_id prover) = true ->
  subject_id tester = subject_id prover ->
  ConsensusCondition.prove this state affected (Some prover) w
  = (Returned (VStr k), w1) ->
  fst (ConsensusCondition.test this state affected (Some (VStr k)) (Some tester) w1)
  = Returned (VBool true).
Proof.
  intros Hst Hu Hpid Hsame Hprove.
  assert (Hon : online w1 = true).
  { rewrite prove_run in Hprove. lazy zeta in Hprove.
    destruct (online w); cbn [negb] in Hprove; [|discriminate].
    destruct (valid_detail_key _); cbn [negb] in Hprove; [|discriminate].
    now injection Hprove as _ <-. }
  now apply (proved_elsewhere this state state affected prover tester w w1 w1 k).
Qed.

Lemma principal_is_known_by_identity_witness :
  fst (ConsensusCondition.test example_condition [] insert_fred
         (Some (VStr proved_key))
         (Some [("name", VStr "Alice"); ("@id", VStr "https://alice.example/profile#me")])
         proved_world)
  = Returned (VBool true).
Proof.
  apply (principal_is_known_by_identity example_condition [] insert_fred alice
           [("name", VStr "Alice"); ("@id", VStr "https://alice.example/profile#me")]
           example_world proved_world proved_key);
    by_computation.
Defined.

(** Two principals without an identity are one for [prove] and [test]. *)
Lemma principals_without_identity_are_one :
  let proved :=
    ConsensusCondition.prove example_condition [] insert_fred (Some nobody)
      example_world in
  match fst proved with
  | Returned key =>
      fst (ConsensusCondition.test example_condition [] insert_fred (Some key)
             (Some [("name", VStr "Somebody else")]) (snd proved))
  | Thrown e => Thrown e
  end
  = Returned (VBool true).
Proof. by_computation. Qed.

(** X12 (a replica that agrees on what is read).  When [prove] has
    returned a proof key on one replica, [test] of that key, for the same
    update and principal, returns [true] on every replica whose state
    answers the reads of [load] as the state of the prover does, whatever
    else the two states hold: other entities, and other properties of the
    entities of the update.  The ledger is in reach and holds under the key
    what [prove] has stored. *)
Theorem proof_passes_where_the_reads_agree (this : ConsensusCondition)
    (state1 state2 : MeldReadState) (affected : GraphUpdate) (principal : Subject)
    (w w1 w2 : World) (k : string) :
  wf_subjects state1 = true ->
  wf_update affected = true ->
  is_primitive (subject_id principal) = true ->
  (forall id properties,
     In (StateGet id properties) (reads (AffectedLoader.new affected)) ->
     state_lookup state2 id properties = state_lookup state1 id properties) ->
  ConsensusCondition.prove this state1 affected (Some principal) w
  = (Returned (VStr k), w1) ->
  online w2 = true ->
  details_get (accountId this) k (details w2)
  = details_get (accountId this) k (details w1) ->
  fst (ConsensusCondition.test this state2 affected (Some (VStr k)) (Some principal) w2)
  = Returned (VBool true).
Proof.
  intros Hst Hu Hpid Hreads Hprove Hon Hd.
  apply (proved_elsewhere this state1 state2 affected principal principal w w1 w2 k);
    try assumption; [reflexivity|].
  unfold final_state. apply map_ext_in. intros [id props] Hin. cbn [fst snd].
  unfold base_subject. rewrite Hreads; [reflexivity|].
  unfold reads. apply in_map_iff. now exists (id, props).
Qed.

Lemma proof_passes_where_the_reads_agree_witness :
  fst (ConsensusCondition.test example_condition other_replica insert_fred
         (Some (VStr proved_key)) (Some alice) proved_world)
  = Returned (VBool true).
Proof.
  apply (proof_passes_where_the_reads_agree example_condition [] other_replica
           insert_fred alice example_world proved_world proved_world proved_key);
    try by_computation.
  intros id properties [[= <- <-] | []]. reflexivity.
Defined.



(** ** The order of the commitment *)

(** X14 (the order of a commitment does not count).  Of two proof values
    of one [pid], held under the proof key by two ledgers, whose states are
    lists of subjects such that every subject of the one is in the other
    with the same ['@id'] and at least its properties, and the other way
    round, [test] gives the same result: the subjects of a commitment may
    come in any order, any number of times, and their properties too. *)
Theorem test_ignores_the_order_of_a_commitment (this : ConsensusCondition)
    (state : MeldReadState) (affected : GraphUpdate) (proof : option Value)
    (principal : Subject) (k : string) (pid : option Value)
    (w w' : World) (text text' : string) (proved proved' : Value)
    (ps ps' : list Value) :
  find_proof_key (array proof) = Some k ->
  online w = true ->
  online w' = true ->
  details_get (accountId this) k (details w) = Some text ->
  details_get (accountId this) k (details w') = Some text' ->
  JSON.parse text = Some proved ->
  JSON.parse text' = Some proved' ->
  member proved "pid" = Returned pid ->
  member proved' "pid" = Returned pid ->
  member proved "state" = Returned (Some (VArr ps)) ->
  member proved' "state" = Returned (Some (VArr ps')) ->
  forallb is_object ps = true ->
  forallb is_object ps' = true ->
  covers ps ps' ->
  covers ps' ps ->
  fst (ConsensusCondition.test this state affected proof (Some principal) w)
  = fst (ConsensusCondition.test this state affected proof (Some principal) w').
Proof.
  intros Hk Hon Hon' Hd Hd' Hp Hp' Hpid Hpid' Hst Hst' Hobj Hobj' Hc Hc'.
  destruct (strict_eq pid (subject_id principal)) eqn:Heq.
  - rewrite (test_run _ _ _ _ _ _ _ _ _ Hk Hon Hd Hp _ Hpid Heq _ Hst).
    rewrite (test_run _ _ _ _ _ _ _ _ _ Hk Hon' Hd' Hp' _ Hpid' Heq _ Hst').
    cbn [fst].
    set (actual := final_state (AffectedLoader.new affected) state).
    destruct (test_subjects_spec ps actual Hobj) as (b & -> & Hb).
    destruct (test_subjects_spec ps' actual Hobj') as (b' & -> & Hb').
    assert (E : b = b').
    { destruct b, b'; try reflexivity.
      - symmetry. apply Hb'. apply (corroborated_covers ps ps'); [assumption|].
        now apply Hb.
      - apply Hb. apply (corroborated_covers ps' ps); [assumption|].
        now apply Hb'. }
    now rewrite E.
  - rewrite (test_parsed _ _ _ _ _ _ _ _ _ Hk Hon Hd Hp).
    rewrite (test_parsed _ _ _ _ _ _ _ _ _ Hk Hon' Hd' Hp').
    unfold bind, lift. now rewrite Hpid, Hpid', Heq.
Qed.

Lemma test_ignores_the_order_of_a_commitment_witness :
  fst (ConsensusCondition.test example_condition [] insert_fred mixed_proof
         (Some alice) (world_with plain_commitment))
  = fst (ConsensusCondition.test example_condition [] insert_fred mixed_proof
           (Some alice) (world_with shuffled_commitment)).
Proof.
  apply (test_ignores_the_order_of_a_commitment example_condition [] insert_fred
           mixed_proof alice "pk_1" (subject_id alice)
           (world_with plain_commitment) (world_with shuffled_commitment)
           (JSON.stringify plain_commitment) (JSON.stringify shuffled_commitment)
           plain_commitment shuffled_commitment
           [VObj [("@id", VStr "fred"); ("name", VStr "Fred")];
            VObj [("@id", VStr "wilma"); ("name", VStr "Wilma")]]
           [VObj [("@id", VStr "wilma"); ("name", VStr "Wilma")];
            VObj [("name", VStr "Fred"); ("@id", VStr "fred")];
            VObj [("@id", VStr "wilma"); ("name", VStr "Wilma")]]);
    try by_computation.
  - intros o [[= <-] | [[= <-] | []]].
    + exists [("name", VStr "Fred"); ("@id", VStr "fred")].
      split; [right; left; reflexivity | split; [reflexivity | same_properties]].
    + exists [("@id", VStr "wilma"); ("name", VStr "Wilma")].
      split; [left; reflexivity | split; [reflexivity | same_properties]].
  - intros o [[= <-] | [[= <-] | [[= <-] | []]]].
    + exists [("@id", VStr "wilma"); ("name", VStr "Wilma")].
      split; [right; left; reflexivity | split; [reflexivity | same_properties]].
    + exists [("@id", VStr "fred"); ("name", VStr "Fred")].
      split; [left; reflexivity | split; [reflexivity | same_properties]].
    + exists [("@id", VStr "wilma"); ("name", VStr "Wilma")].
      split; [right; left; reflexivity | split; [reflexivity | same_properties]].
Defined.

(** ** The proof value *)

Lemma find_proof_key_after (f : Value -> bool) (before rest : list Value)
    (k : string) :
  String.prefix PROOF_KEY_PREFIX k = true ->
  (forall v, In v before -> proof_key_of v = None) ->
  find_proof_key (filter f before ++ VStr k :: rest) = Some k.
Proof.
  intros Hk Hb. induction before as [|x l IH]; cbn [filter Datatypes.app].
  - cbn [find_proof_key proof_key_of]. now rewrite Hk.
  - assert (Hl : forall v, In v l -> proof_key_of v = None)
      by (intros v Hv; apply Hb; now right).
    destruct (f x); cbn [Datatypes.app find_proof_key]; [|now apply IH].
    rewrite (Hb x (or_introl eq_refl)). now apply IH.
Qed.

(** X15 (a proof key among other things).  [test] of a proof value that is
    a collection with a proof key in it, after elements that are no proof
    keys (other strings, other values, [null]) and before anything at all,
    is [test] of that proof key alone: the same result and the same
    interactions. *)
Theorem test_of_a_collection_is_test_of_its_key (this : ConsensusCondition)
    (state : MeldReadState) (affected : GraphUpdate) (before after : list Value)
    (k : string) (principalRef : option Subject) (w : World) :
  String.prefix PROOF_KEY_PREFIX k = true ->
  (forall v, In v before -> proof_key_of v = None) ->
  ConsensusCondition.test this state affected
    (Some (VArr (before ++ VStr k :: after))) principalRef w
  = ConsensusCondition.test this state affected (Some (VStr k)) principalRef w.
Proof.
  intros Hk Hb.
  assert (E : find_proof_key (array (Some (VArr (before ++ VStr k :: after))))
              = find_proof_key (array (Some (VStr k)))).
  { cbn [array]. rewrite filter_app. cbn [filter is_nullish negb].
    rewrite (find_proof_key_after _ _ _ _ Hk Hb).
    cbn [find_proof_key proof_key_of]. now rewrite Hk. }
  unfold ConsensusCondition.test. now rewrite E.
Qed.

Lemma test_of_a_collection_is_test_of_its_key_witness :
  ConsensusCondition.test example_condition [] insert_fred mixed_proof (Some alice)
    (world_with wide_commitment)
  = ConsensusCondition.test example_condition [] insert_fred (Some (VStr "pk_1"))
      (Some alice) (world_with wide_commitment).
Proof.
  apply (test_of_a_collection_is_test_of_its_key example_condition [] insert_fred
           [VNum 7; VStr "unrelated-value"] [VStr "pk_2"] "pk_1" (Some alice)
           (world_with wide_commitment)).
  - reflexivity.
  - intros v [<- | [<- | []]]; reflexivity.
Defined.

(** ** What of the world counts for [test] *)

(** The result of [test] for a principal and a proof key, read off the
    ledger. *)
Lemma test_result (this : ConsensusCondition) (state : MeldReadState)
    (affected : GraphUpdate) (proof : option Value) (principal : Subject)
    (k : string) (w : World) :
  find_proof_key (array proof) = Some k ->
  fst (ConsensusCondition.test this state affected proof (Some principal) w)
  = if online w then
      match details_get (accountId this) k (details w) with
      | None => Returned (VStr "No proof in ledger")
      | Some text =>
          match JSON.parse text with
          | None => Thrown "SyntaxError"
          | Some proved =>
              match member proved "pid" with
              | Thrown e => Thrown e
              | Returned pid =>
                  if strict_eq pid (subject_id principal) then
                    match member proved "state" with
                    | Thrown e => Thrown e
                    | Returned provedState =>
                        match test_subjects provedState
                                (final_state (AffectedLoader.new affected) state) with
                        | Thrown e => Thrown e
                        | Returned true => Returned (VBool true)
                        | Returned false => Returned (VStr "Proof does not match update")
                        end
                    end
                  else Returned (VStr "Proof principal does not match update principal")
              end
          end
      end
    else Thrown "Iroha unavailable".
Proof.
  intros Hk. unfold ConsensusCondition.test. rewrite Hk. unfold bind at 1.
  rewrite getAccountDetail_run.
  destruct (online w); [|reflexivity].
  destruct (details_get _ _ _) as [text|]; [|reflexivity].
  destruct (JSON.parse text) as [proved|]; [|reflexivity].
  unfold bind at 1, lift at 1.
  destruct (member proved "pid") as [pid|e]; [|reflexivity].
  destruct (strict_eq pid (subject_id principal)); cbn [negb]; [|reflexivity].
  unfold bind at 1. rewrite load_run. unfold bind, lift, ret.
  destruct (member proved "state"); [|reflexivity].
  destruct (test_subjects _ _) as [[]|]; reflexivity.
Qed.

(** X16 (what of the world counts for [test]).  The result of [test]
    depends on the world only by whether Iroha is in reach and by the
    detail of the account of the condition under the proof key: in two
    worlds that agree on these, whatever their other details, their random
    sources and their earlier interactions, [test] gives the same
    result. *)
Theorem test_depends_on_one_record (this : ConsensusCondition)
    (state : MeldReadState) (affected : GraphUpdate) (proof : option Value)
    (principalRef : option Subject) (w w' : World) :
  online w = online w' ->
  (forall k, find_proof_key (array proof) = Some k ->
             details_get (accountId this) k (details w)
             = details_get (accountId this) k (details w')) ->
  fst (ConsensusCondition.test this state affected proof principalRef w)
  = fst (ConsensusCondition.test this state affected proof principalRef w').
Proof.
  intros Hon Hd. destruct principalRef as [principal|]; [|reflexivity].
  destruct (find_proof_key (array proof)) as [k|] eqn:Hk.
  - rewrite !(test_result _ _ _ _ _ k) by assumption.
    now rewrite Hon, (Hd k eq_refl).
  - unfold ConsensusCondition.test. now rewrite Hk.
Qed.

Lemma test_depends_on_one_record_witness :
  fst (ConsensusCondition.test example_condition [] insert_fred mixed_proof
         (Some alice) (world_with wide_commitment))
  = fst (ConsensusCondition.test example_condition [] insert_fred mixed_proof
           (Some alice)
           (mkWorld [("clone@other.example", "pk_1", "{}");
                     (accountId example_condition, "pk_2", "[]");
                     (accountId example_condition, "pk_1",
                      JSON.stringify wide_commitment)]
                    true (fun _ => "a"%char) 48 [RandomBytes 48])).
Proof.
  apply (test_depends_on_one_record example_condition [] insert_fred mixed_proof
           (Some alice)).
  - reflexivity.
  - intros k [= <-]. by_computation.
Defined.

(** ** Two domains *)

Lemma accountId_new_inj (domain1 domain2 : string) :
  accountId (ConsensusCondition.new domain1)
  = accountId (ConsensusCondition.new domain2) ->
  domain1 = domain2.
Proof.
  unfold ConsensusCondition.new. cbn [accountId String.append]. now intros [= H].
Qed.

(** X17 (a proof stays in its domain).  The account of a condition is the
    account [clone] of the domain of its configuration, so the conditions
    of two domains have two accounts: a proof made by [prove] for one
    domain leaves every detail of the account of the other as it was, and
    with that every result of [test] under the condition of the other
    domain. *)
Theorem proofs_stay_in_their_domain (domain1 domain2 : string)
    (state state' : MeldReadState) (affected affected' : GraphUpdate)
    (principal : Subject) (proof : option Value) (principalRef : option Subject)
    (w w1 : World) (k : string) :
  domain1 <> domain2 ->
  ConsensusCondition.prove (ConsensusCondition.new domain1) state affected
    (Some principal) w
  = (Returned (VStr k), w1) ->
  (forall key,
     details_get (accountId (ConsensusCondition.new domain2)) key (details w1)
     = details_get (accountId (ConsensusCondition.new domain2)) key (details w))
  /\ fst (ConsensusCondition.test (ConsensusCondition.new domain2) state' affected'
            proof principalRef w1)
     = fst (ConsensusCondition.test (ConsensusCondition.new domain2) state' affected'
              proof principalRef w).
Proof.
  intros N Hprove.
  rewrite prove_run in Hprove. lazy zeta in Hprove.
  destruct (online w) eqn:Hon; cbn [negb] in Hprove; [|discriminate].
  destruct (valid_detail_key _); cbn [negb] in Hprove; [|discriminate].
  injection Hprove as _ <-. cbn [details].
  assert (H : forall key,
             details_get (accountId (ConsensusCondition.new domain2)) key
               (details_set (accountId (ConsensusCondition.new domain1))
                  (PROOF_KEY_PREFIX ++ toString_hex (map (noise w) (seq (drawn w) 16)))
                  (JSON.stringify
                     (ProofValue (subject_id principal)
                        (final_state (AffectedLoader.new affected) state)))
                  (details w))
             = details_get (accountId (ConsensusCondition.new domain2)) key (details w)).
  { intros key. apply details_get_set_other. intros E.
    apply (f_equal fst) in E. cbn [fst] in E.
    apply N. symmetry. now apply accountId_new_inj. }
  split; [exact H|].
  destruct principalRef as [tester|]; [|reflexivity].
  destruct (find_proof_key (array proof)) as [key|] eqn:Hkey.
  - rewrite !(test_result _ _ _ _ _ key) by assumption.
    cbn [online details]. now rewrite Hon, H.
  - unfold ConsensusCondition.test. now rewrite Hkey.
Qed.

Lemma proofs_stay_in_their_domain_witness :
  (forall key,
     details_get (accountId (ConsensusCondition.new "other.example")) key
       (details proved_world)
     = details_get (accountId (ConsensusCondition.new "other.example")) key
         (details example_world))
  /\ fst (ConsensusCondition.test (ConsensusCondition.new "other.example") []
            insert_fred (Some (VStr proved_key)) (Some alice) proved_world)
     = fst (ConsensusCondition.test (ConsensusCondition.new "other.example") []
              insert_fred (Some (VStr proved_key)) (Some alice) example_world).
Proof.
  apply (proofs_stay_in_their_domain "test.m-ld.org" "other.example" [] []
           insert_fred insert_fred alice (Some (VStr proved_key)) (Some alice)
           example_world proved_world proved_key).
  - discriminate.
  - reflexivity.
Defined.

(* ================================================================== *)
(** * More about [AffectedLoader] *)

Lemma table_set_same (id : string) (ps : list string) (t : table) :
  table_get id t = Some ps -> table_set id ps t = t.
Proof.
  induction t as [|[k qs] t IH]; cbn [table_get table_set]; [discriminate|].
  destruct (String.eqb k id); [now intros [= ->] | intros H; now rewrite IH].
Qed.

Lemma Set_add_member (x : string) (s : list string) : In x s -> Set_add x s = s.
Proof. intros H. unfold Set_add. apply mem_string_In in H. now rewrite H. Qed.

Lemma add_keys_known (subject : Subject) (id : string) (ks : list string) (t : table) :
  (forall p, In p ks -> isPropertyObject p (obj_get p subject) = true ->
             to_load t id p) ->
  add_keys subject id ks t = t.
Proof.
  induction ks as [|k ks IH]; intros H; [reflexivity|].
  rewrite add_keys_cons.
  assert (Hks : forall p, In p ks -> isPropertyObject p (obj_get p subject) = true ->
                          to_load t id p)
    by (intros p Hp; apply H; now right).
  destruct (isPropertyObject k (obj_get k subject)) eqn:Ek; [|now apply IH].
  destruct (H k (or_introl eq_refl) Ek) as (ps & Hps & Hin).
  rewrite Hps, (Set_add_member k ps Hin), (table_set_same id ps t Hps). now apply IH.
Qed.

Lemma addProperties_subject_known (t : table) (subject : Subject) :
  listed t (to_key (subject_id subject)) ->
  (forall p, isPropertyObject p (obj_get p subject) = true ->
             to_load t (to_key (subject_id subject)) p) ->
  AffectedLoader.addProperties_subject t subject = t.
Proof.
  intros Hl Hp. rewrite addProperties_subject_unfold.
  apply table_get_key in Hl.
  destruct (table_get (to_key (subject_id subject)) t); [|contradiction].
  apply add_keys_known. intros p _. apply Hp.
Qed.

Lemma fold_addProperties_known (subjects : list Subject) (t : table) :
  (forall s, In s subjects ->
     listed t (to_key (subject_id s))
     /\ forall p, isPropertyObject p (obj_get p s) = true ->
                  to_load t (to_key (subject_id s)) p) ->
  fold_left AffectedLoader.addProperties_subject subjects t = t.
Proof.
  induction subjects as [|s subjects IH]; intros H; cbn [fold_left]; [reflexivity|].
  destruct (H s (or_introl eq_refl)) as (Hl & Hp).
  rewrite (addProperties_subject_known t s Hl Hp).
  apply IH. intros x Hx. apply H. now right.
Qed.

(** X18 (subjects added again).  [addProperties] of subjects that were
    given to [addProperties] before leaves the loader as it is: no
    identity and no property is added a second time, and the order of the
    identities and of their properties is kept. *)
Theorem addProperties_again (this : AffectedLoader) (subjects again : list Subject) :
  incl again subjects ->
  AffectedLoader.addProperties (AffectedLoader.addProperties this subjects) again
  = AffectedLoader.addProperties this subjects.
Proof.
  intros Hincl. unfold AffectedLoader.addProperties.
  cbn [affected subjectPropertiesToLoad]. f_equal.
  destruct (fold_addProperties_spec subjects (subjectPropertiesToLoad this))
    as (Hl & _ & Hp).
  apply fold_addProperties_known. intros s Hs. apply Hincl in Hs. split.
  - apply Hl. right. now exists s.
  - intros p Hprop. apply Hp. right. now exists s.
Qed.

Lemma addProperties_again_witness :
  AffectedLoader.addProperties
    (AffectedLoader.addProperties (mkAffectedLoader insert_fred [])
       (at_insert insert_fred ++ at_delete delete_fred))
    (at_delete delete_fred)
  = AffectedLoader.addProperties (mkAffectedLoader insert_fred [])
      (at_insert insert_fred ++ at_delete delete_fred).
Proof.
  apply (addProperties_again (mkAffectedLoader insert_fred [])
           (at_insert insert_fred ++ at_delete delete_fred) (at_delete delete_fred)).
  intros s Hs. apply in_or_app. now right.
Defined.

(** ** The order of the snapshot *)





(* ================================================================== *)
(** * The value sent to Iroha *)

Lemma hex_digit_from_space (n : nat) : from_space (hex_digit n) = true.
Proof. do 16 (destruct n as [|n]; [reflexivity|]). reflexivity. Qed.

Lemma quote_char_from_space (c : ascii) : all_chars from_space (quote_char c) = true.
Proof.
  unfold quote_char.
  repeat (match goal with
          | |- context [if Ascii.eqb c ?x then _ else _] =>
              destruct (Ascii.eqb c x); [reflexivity|]
          end).
  destruct (Nat.ltb (nat_of_ascii c) 32) eqn:E.
  - cbn [all_chars]. now rewrite !hex_digit_from_space.
  - cbn [all_chars]. unfold from_space. apply Nat.ltb_ge in E.
    apply Nat.leb_le in E. now rewrite E.
Qed.

Lemma quote_body_from_space (s : string) : all_chars from_space (quote_body s) = true.
Proof.
  induction s as [|c s IH]; [reflexivity|].
  cbn [quote_body]. now rewrite all_chars_append, quote_char_from_space, IH.
Qed.

(** X20 (the value sent to Iroha).  For every string, with quotes,
    backslashes and line ends or without, the value that
    [setAccountDetail] sends, [JSON.stringify(value).slice(1, -1)], has no
    character before the space, and put between two double quotes it is a
    JSON text that [JSON.parse] reads as the string itself. *)
Theorem sent_value_is_a_string_body (this : ConsensusCondition) (key value : string)
    (w : World) :
  exists wire,
    trace (snd (ConsensusCondition.setAccountDetail this key value w))
    = trace w ++ [SetAccountDetail (accountId this) key wire]
    /\ all_chars from_space wire = true
    /\ JSON.parse (String DQUOTE (wire ++ String DQUOTE "")) = Some (VStr value).
Proof.
  exists (slice_1_neg1 (JSON.stringify (VStr value))). split.
  - rewrite setAccountDetail_run. cbv zeta.
    destruct (negb (online w)); [reflexivity|].
    destruct (negb (valid_detail_key key)); reflexivity.
  - cbn [JSON.stringify]. rewrite slice_quote. split; [apply quote_body_from_space|].
    apply (parse_stringify (VStr value)). reflexivity.
Qed.

(* ================================================================== *)
(** * The account of the clones *)

(** X21 (one account).  The account that the batch of [initialise]
    creates, in the domain that the batch creates first and with the key of
    the first principal for its signatory, is the account to which
    [registerPrincipal] adds a signatory, in a transaction of that account,
    and it is the account of the [ConsensusCondition] of a clone of the
    domain, to which [prove] writes and which [test] reads. *)
Theorem clones_share_one_account (this : IrohaMeldDomain)
    (defaultRole firstKey newKey existingKey : string) :
  map commands (transactions (IrohaMeldDomain.initialise this defaultRole firstKey))
  = [[CreateDomain (domainId this) defaultRole];
     [CreateAccount "clone" (domainId this) firstKey]]
  /\ account_of "clone" (domainId this) = IrohaMeldDomain.accountId this
  /\ commands (IrohaMeldDomain.registerPrincipal this newKey existingKey)
     = [AddSignatory (IrohaMeldDomain.accountId this) newKey]
  /\ creatorAccountId (IrohaMeldDomain.registerPrincipal this newKey existingKey)
     = IrohaMeldDomain.accountId this
  /\ accountId (ConsensusCondition.new (domainId this))
     = IrohaMeldDomain.accountId this.
Proof. repeat split. Qed.

(** X22 (signed as the quorum asks).  Every transaction that
    [IrohaMeldDomain] sends is signed with as many keys as its quorum, one:
    the two transactions of [initialise], of the administrator, with the
    key of the administrator, each at its place in the batch, and the
    transaction of [registerPrincipal] with the key of a signatory of the
    account. *)
Theorem transactions_meet_their_quorum (this : IrohaMeldDomain)
    (defaultRole firstKey newKey existingKey : string) :
  Forall (fun tx => creatorAccountId tx = adminId this
                    /\ signedWith tx = [adminEd25519PrivateKey this]
                    /\ List.length (signedWith tx) = quorum tx)
         (transactions (IrohaMeldDomain.initialise this defaultRole firstKey))
  /\ signedWith (IrohaMeldDomain.registerPrincipal this newKey existingKey)
     = [existingKey]
  /\ List.length (signedWith (IrohaMeldDomain.registerPrincipal this newKey existingKey))
     = quorum (IrohaMeldDomain.registerPrincipal this newKey existingKey).
Proof.
  split; [|split; reflexivity].
  unfold IrohaMeldDomain.initialise. cbn [BatchBuilder.sign BatchBuilder.sign_at
    BatchBuilder.setBatchMeta BatchBuilder.new transactions].
  repeat constructor.
Qed.

(** The batch of the repository's test "initialise blockchain with m-ld
    domain". *)
Lemma suite_initialises_the_domain :
  IrohaMeldDomain.initialise example_domain "user" "alice-public-key"
  = mkBatch
      [mkTransaction [CreateDomain "test.m-ld.org" "user"]
         "admin@test" 1 ["admin-private-key"];
       mkTransaction [CreateAccount "clone" "test.m-ld.org" "alice-public-key"]
         "admin@test" 1 ["admin-private-key"]]
      (Some 0).
Proof. reflexivity. Qed.
